(** * LnXBuyBot: the watch registry and the buy-notification formatter

    A shallow embedding of the bot's listener life cycle
    ([startBlockchainListener], [stopBlockchainListener], the simulated
    feeds and [sendBuyNotification]) and of the stand-alone feed of
    [blockchain-monitor.js], together with the properties the design
    document states about them.

    Conventions.
    - JavaScript strings are modelled as byte strings holding the UTF-8
      encoding of the text; concatenation and [repeat] commute with the
      encoding.
    - A JavaScript Number is modelled by [Number]: NaN, the two infinities
      and the finite values as rationals.  [parseFloat] rounds the decimal
      literal to the nearest binary64 value, so every number it returns is
      a double.
    - The single-threaded runtime is modelled by explicit state passing over
      a [World]: the [activeListeners] object, the table of live interval
      timers, the in-memory [db.groups], the clock and the trace of
      observable effects (console lines, Telegram calls). *)

From Stdlib Require Import ZArith QArith Lqa String Ascii List Lia.
From Stdlib Require Import SpecFloat.
From stdpp Require Import gmap strings pretty.

Local Open Scope string_scope.

(* ===================================================================== *)
(** * Strings *)
(* ===================================================================== *)

(** The line feed written [\n] in the source. *)
Definition nl : string := String (ascii_of_nat 10) EmptyString.

(** The double quote inside the [href] attribute. *)
Definition dquote : string := String (ascii_of_nat 34) EmptyString.

(** [String.prototype.repeat]. *)
Fixpoint repeat_string (s : string) (count : nat) : string :=
  match count with
  | O => EmptyString
  | S n => s ++ repeat_string s n
  end.

(** [s] occurs inside [t]. *)
Definition contains (s t : string) : Prop :=
  exists pre post : string, t = pre ++ s ++ post.

(** Truthiness of a string value: only the empty string is falsy. *)
Definition truthy (s : string) : bool :=
  match s with
  | EmptyString => false
  | String _ _ => true
  end.

(** [a || b] on an environment variable that may be unset. *)
Definition or_default (v : option string) (d : string) : string :=
  match v with
  | Some s => if truthy s then s else d
  | None => d
  end.

(* ===================================================================== *)
(** * Numbers and [parseFloat] *)
(* ===================================================================== *)

(** A JavaScript Number.  The sign of zero is dropped: no comparison
    observes it. *)
Inductive Number : Type :=
  | NaN : Number
  | Infinity (negative : bool) : Number
  | Finite (q : Q) : Number.

(** The relational operator [x < y]; false as soon as one side is NaN. *)
Definition lt (x y : Number) : bool :=
  match x, y with
  | NaN, _ => false
  | _, NaN => false
  | Infinity true, Infinity true => false
  | Infinity true, _ => true
  | Infinity false, _ => false
  | Finite _, Infinity negative => negb negative
  | Finite a, Finite b => negb (Qle_bool b a)
  end.

(** binary64: 53 bits of precision, exponents below 1024. *)
Definition prec : Z := 53.
Definition emax : Z := 1024.

(** The value denoted by a binary64 datum. *)
Definition of_spec_float (f : spec_float) : Number :=
  match f with
  | S754_zero _ => Finite 0
  | S754_infinity s => Infinity s
  | S754_nan => NaN
  | S754_finite s m e =>
      Finite ((if s then -1 else 1) * inject_Z (Zpos m) * (2 ^ e))%Q
  end.

(** The Number value of the decimal [±m·10^d], rounded to nearest, ties
    to even. *)
Definition round_decimal (negative : bool) (m : N) (d : Z) : Number :=
  match m with
  | N0 => Finite 0
  | Npos p =>
      if (0 <=? d)%Z then
        of_spec_float
          (binary_normalize prec emax
             ((if negative then Zneg p else Zpos p) * 10 ^ d)%Z 0 false)
      else
        of_spec_float
          (SFdiv prec emax
             (S754_finite negative p 0)
             (S754_finite false (Z.to_pos (10 ^ (- d))) 0))
  end.

(** Leading white space and line terminators removed by [parseFloat]
    (TrimString), on the UTF-8 bytes: TAB, LF, VT, FF, CR, SP, U+00A0,
    U+1680, U+2000..U+200A, U+2028, U+2029, U+202F, U+205F, U+3000 and
    U+FEFF. *)
Fixpoint skip_white_space (fuel : nat) (l : list N) : list N :=
  match fuel with
  | O => l
  | S fuel' =>
      match l with
      | 9 :: r | 10 :: r | 11 :: r | 12 :: r | 13 :: r | 32 :: r =>
          skip_white_space fuel' r
      | 194 :: 160 :: r => skip_white_space fuel' r
      | 225 :: 154 :: 128 :: r => skip_white_space fuel' r
      | 226 :: 128 :: b :: r =>
          if ((128 <=? b) && (b <=? 138)) || (b =? 168) || (b =? 169) || (b =? 175)
          then skip_white_space fuel' r else l
      | 226 :: 129 :: 159 :: r => skip_white_space fuel' r
      | 227 :: 128 :: 128 :: r => skip_white_space fuel' r
      | 239 :: 187 :: 191 :: r => skip_white_space fuel' r
      | _ => l
      end
  end%N.

(** The bytes of a string, as character codes. *)
Definition codes (s : string) : list N :=
  map N_of_ascii (list_ascii_of_string s).

(** DecimalDigits: the longest run of digits, accumulated on [acc];
    returns the value, the number of digits read and the rest. *)
Fixpoint decimal_digits (l : list N) (acc : N) (read : nat)
  : N * nat * list N :=
  match l with
  | c :: r =>
      if ((48 <=? c) && (c <=? 57))%N
      then decimal_digits r (acc * 10 + (c - 48))%N (S read)
      else (acc, read, l)
  | nil => (acc, read, l)
  end.

(** An optional sign. *)
Definition sign (l : list N) : bool * list N :=
  match l with
  | 45 :: r => (true, r)
  | 43 :: r => (false, r)
  | _ => (false, l)
  end%N.

(** [l] begins with the bytes of [p]. *)
Fixpoint begins_with (p l : list N) : bool :=
  match p, l with
  | nil, _ => true
  | a :: p', b :: l' => (a =? b)%N && begins_with p' l'
  | _ :: _, nil => false
  end.

(** ExponentPart: [e] or [E], an optional sign and at least one digit;
    an incomplete exponent is not part of the literal. *)
Definition exponent_part (l : list N) : Z :=
  match l with
  | c :: r =>
      if ((c =? 101) || (c =? 69))%N then
        let '(negative, r1) := sign r in
        let '(e, read, _) := decimal_digits r1 0%N 0 in
        if (read =? 0)%nat then 0%Z
        else if negative then (- Z.of_N e)%Z else Z.of_N e
      else 0%Z
  | nil => 0%Z
  end.

(** [parseFloat(string)]: the longest prefix of the trimmed string that
    is a StrDecimalLiteral, NaN when there is none. *)
Definition parseFloat (s : string) : Number :=
  let l := skip_white_space (String.length s) (codes s) in
  let '(negative, l1) := sign l in
  if begins_with (codes "Infinity") l1 then Infinity negative
  else
    let '(ip, ni, l2) := decimal_digits l1 0%N 0 in
    let '(m, nf, l3) :=
      match l2 with
      | (46 :: r)%N => decimal_digits r ip 0
      | _ => (ip, 0, l2)
      end in
    if (ni + nf =? 0)%nat then NaN
    else round_decimal negative m (exponent_part l3 - Z.of_nat nf).

(* ===================================================================== *)
(** * Configuration ([config/index.js]) *)
(* ===================================================================== *)

(** The environment variables the bot reads. *)
Record ProcessEnv : Type := {
  NODE_ENV : option string;
  BNB_EXPLORER : option string;
  SOLANA_EXPLORER : option string
}.

Record ScannerUrls : Type := {
  scanner_BNB : string;
  scanner_Solana : string
}.

(** [config.scannerUrls]. *)
Definition scannerUrls (env : ProcessEnv) : ScannerUrls :=
  {| scanner_BNB := or_default (BNB_EXPLORER env) "https://bscscan.com/tx/";
     scanner_Solana := or_default (SOLANA_EXPLORER env) "https://solscan.io/tx/" |}.

(** [process.env.NODE_ENV === 'production']. *)
Definition production (env : ProcessEnv) : bool :=
  match NODE_ENV env with
  | Some s => String.eqb s "production"
  | None => false
  end.

(** An environment with nothing set: every fallback applies. *)
Definition default_env : ProcessEnv :=
  {| NODE_ENV := None; BNB_EXPLORER := None; SOLANA_EXPLORER := None |}.

(* ===================================================================== *)
(** * Data *)
(* ===================================================================== *)

Record TokenInfo : Type := {
  name : string;
  symbol : string
}.

(** The object built by [finalizeSetup] and captured by the feed
    callbacks.  [tokenInfo] may be missing, which [sendBuyNotification]
    provides for. *)
Record GroupConfig : Type := {
  chain : string;
  tokenAddress : string;
  tokenInfo : option TokenInfo;
  emoji : string;
  imageFileId : string;
  isActive : bool;
  createdAt : Z;
  updatedAt : Z
}.

(** The transaction object a feed hands to its callback. *)
Record Tx : Type := {
  hash : string;
  tokenAmount : string;
  nativeAmount : string;
  usdAmount : string;
  buyer : string
}.

(* ===================================================================== *)
(** * The notification text ([sendBuyNotification], rendering part) *)
(* ===================================================================== *)

(** The tier of a parsed USD value. *)
Definition emojiCount (usdValue : Number) : nat :=
  if lt usdValue (Finite 50) then 1
  else if lt usdValue (Finite 200) then 3
  else if lt usdValue (Finite 1000) then 5
  else 10.

(** [groupConfig.tokenInfo || { name: 'Unknown Token', symbol: 'TOKEN' }]. *)
Definition tokenInfo_or_default (groupConfig : GroupConfig) : TokenInfo :=
  match tokenInfo groupConfig with
  | Some t => t
  | None => {| name := "Unknown Token"; symbol := "TOKEN" |}
  end.

Definition emojiString (groupConfig : GroupConfig) (tx : Tx) : string :=
  repeat_string (emoji groupConfig) (emojiCount (parseFloat (usdAmount tx))).

Definition is_BNB (groupConfig : GroupConfig) : bool :=
  String.eqb (chain groupConfig) "BNB".

Definition explorerUrl (env : ProcessEnv) (groupConfig : GroupConfig) (tx : Tx)
  : string :=
  if is_BNB groupConfig
  then scanner_BNB (scannerUrls env) ++ hash tx
  else scanner_Solana (scannerUrls env) ++ hash tx.

Definition nativeCurrency (groupConfig : GroupConfig) : string :=
  if is_BNB groupConfig then "BNB" else "SOL".

(** The caption, line by line as the template literal builds it. *)
Definition caption (env : ProcessEnv) (groupConfig : GroupConfig) (tx : Tx)
    (isSample : bool) : string :=
  let info := tokenInfo_or_default groupConfig in
  ("<b>NEW BUY" ++ (if isSample then " (SAMPLE)" else EmptyString) ++ "</b>" ++ nl)
  ++ (emojiString groupConfig tx ++ nl ++ nl)
  ++ ("🔄 <b>" ++ name info ++ " (" ++ symbol info ++ ")</b>" ++ nl ++ nl)
  ++ ("💰 Amount: <b>" ++ tokenAmount tx ++ " " ++ symbol info ++ "</b>" ++ nl)
  ++ ("🪙 Value: <b>" ++ nativeAmount tx ++ " " ++ nativeCurrency groupConfig
        ++ "</b> ($" ++ usdAmount tx ++ ")" ++ nl)
  ++ ("👤 Buyer: <code>" ++ buyer tx ++ "</code>" ++ nl ++ nl)
  ++ ("🔗 <a href=" ++ dquote ++ explorerUrl env groupConfig tx ++ dquote
        ++ ">View Transaction</a>").

(* ===================================================================== *)
(** * The runtime state *)
(* ===================================================================== *)

(** The control object a feed returns: its [stop] clears the interval the
    feed created, when there is one.  [ref] is the identity of the
    object. *)
Record Listener : Type := {
  ref : nat;
  intervalId : option nat
}.

(** The closure handed to the monitors,
    [(txData) => sendBuyNotification(groupId, groupConfig, txData)]. *)
Inductive BuyCallback : Type :=
  | Notify (groupId : Z) (groupConfig : GroupConfig).

(** The interval callbacks of the three feeds, with what they capture. *)
Inductive IntervalCallback : Type :=
  | BnbPoll (callback : BuyCallback)
  | SolanaPoll (callback : BuyCallback)
  | SimPoll (groupId : Z) (groupConfig : GroupConfig).

(** The image argument of [sendPhoto]. *)
Inductive Photo : Type :=
  | FileId (id : string)
  | LocalFile (path : string).

Inductive Level : Type := INFO | ERROR.

(** Observable effects, in the order they happen.  A console line is
    kept without the data object printed after it.  [StopCalled] records
    an invocation of a listener's [stop]; the last component of the
    Telegram calls tells whether the call succeeded. *)
Inductive Event : Type :=
  | Log (level : Level) (timestamp : Z) (message : string)
  | SendPhoto (chatId : Z) (photo : Photo) (text : string) (delivered : bool)
  | ReplyWithPhoto (chatId : Z) (photo : Photo) (text : string) (delivered : bool)
  | Reply (chatId : Z) (text : string)
  | StopCalled (listener : Listener).

Record World : Type := {
  activeListeners : gmap string Listener;
  timers : gmap nat IntervalCallback;
  nextId : nat;
  groups : gmap Z GroupConfig;
  now : Z;
  trace : list Event
}.

Definition emit (e : Event) (w : World) : World :=
  {| activeListeners := activeListeners w; timers := timers w;
     nextId := nextId w; groups := groups w; now := now w;
     trace := trace w ++ [e] |}.

Definition set_activeListeners (m : gmap string Listener) (w : World) : World :=
  {| activeListeners := m; timers := timers w;
     nextId := nextId w; groups := groups w; now := now w;
     trace := trace w |}.

Definition set_groups (m : gmap Z GroupConfig) (w : World) : World :=
  {| activeListeners := activeListeners w; timers := timers w;
     nextId := nextId w; groups := m; now := now w;
     trace := trace w |}.

Definition set_now (t : Z) (w : World) : World :=
  {| activeListeners := activeListeners w; timers := timers w;
     nextId := nextId w; groups := groups w; now := t;
     trace := trace w |}.

(** [logger.log] and [logger.error]: a time-stamped console line. *)
Definition logger_log (message : string) (w : World) : World :=
  emit (Log INFO (now w) message) w.

Definition logger_error (message : string) (w : World) : World :=
  emit (Log ERROR (now w) message) w.

(** Allocation of an object: a fresh identity. *)
Definition fresh (w : World) : nat * World :=
  (nextId w,
   {| activeListeners := activeListeners w; timers := timers w;
      nextId := S (nextId w); groups := groups w; now := now w;
      trace := trace w |}).

(** [setInterval]: a fresh timer is entered in the table. *)
Definition setInterval (cb : IntervalCallback) (w : World) : nat * World :=
  (nextId w,
   {| activeListeners := activeListeners w;
      timers := <[nextId w := cb]> (timers w);
      nextId := S (nextId w); groups := groups w; now := now w;
      trace := trace w |}).

(** [clearInterval]: the timer leaves the table and never fires again. *)
Definition clearInterval (id : nat) (w : World) : World :=
  {| activeListeners := activeListeners w;
     timers := delete id (timers w);
     nextId := nextId w; groups := groups w; now := now w;
     trace := trace w |}.

(** [listener.stop()]. *)
Definition stop (l : Listener) (w : World) : World :=
  let w := emit (StopCalled l) w in
  match intervalId l with
  | Some id => clearInterval id w
  | None => w
  end.

(** [db.saveGroup] with a full configuration, and [db.getGroup]. *)
Definition saveGroup (groupId : Z) (data : GroupConfig) (w : World) : World :=
  logger_log ("Group " ++ pretty groupId ++ " settings updated")
    (set_groups (<[groupId := data]> (groups w)) w).

Definition getGroup (groupId : Z) (w : World) : option GroupConfig :=
  groups w !! groupId.

(* ===================================================================== *)
(** * Delivery ([sendBuyNotification]) *)
(* ===================================================================== *)

(** The image sent with the caption. *)
Definition photo_of (groupConfig : GroupConfig) : Photo :=
  if truthy (imageFileId groupConfig)
     && negb (String.eqb (imageFileId groupConfig) "default")
  then FileId (imageFileId groupConfig)
  else LocalFile "assets/default.png".

(** [sendBuyNotification(groupId, groupConfig, tx, isSample)].  [delivered]
    is the outcome of the Telegram call; a rejection is caught and
    logged. *)
Definition sendBuyNotification (env : ProcessEnv) (delivered : bool)
    (groupId : Z) (groupConfig : GroupConfig) (tx : Tx) (isSample : bool)
    (w : World) : World :=
  let w := logger_log ("Sending buy notification"
                       ++ (if isSample then " (sample)" else EmptyString)) w in
  let text := caption env groupConfig tx isSample in
  let w := emit (SendPhoto groupId (photo_of groupConfig) text delivered) w in
  if delivered
  then logger_log "Buy notification sent successfully" w
  else logger_error "Error sending buy notification" w.

(** Applying the closure a monitor was given. *)
Definition call (env : ProcessEnv) (delivered : bool) (cb : BuyCallback)
    (tx : Tx) (w : World) : World :=
  match cb with
  | Notify groupId groupConfig =>
      sendBuyNotification env delivered groupId groupConfig tx false w
  end.

(* ===================================================================== *)
(** * Feeds *)
(* ===================================================================== *)

(** [monitorBnbDexSwaps]: the provider and the contract are built first
    ([opens] is false when that throws); the simulated interval exists
    outside production only. *)
Definition monitorBnbDexSwaps (env : ProcessEnv) (opens : bool)
    (callback : BuyCallback) (w : World) : option (Listener * World) :=
  if opens then
    let w := logger_log "Starting BNB Chain DEX monitoring" w in
    if production env then
      let '(r, w) := fresh w in
      Some ({| ref := r; intervalId := None |}, w)
    else
      let '(id, w) := setInterval (BnbPoll callback) w in
      let '(r, w) := fresh w in
      Some ({| ref := r; intervalId := Some id |}, w)
  else None.

(** [monitorSolanaDexSwaps]: the connection is built first; the interval
    is always set. *)
Definition monitorSolanaDexSwaps (opens : bool)
    (callback : BuyCallback) (w : World) : option (Listener * World) :=
  if opens then
    let w := logger_log "Starting Solana DEX monitoring" w in
    let '(id, w) := setInterval (SolanaPoll callback) w in
    let '(r, w) := fresh w in
    Some ({| ref := r; intervalId := Some id |}, w)
  else None.

(** The key under which a listener is stored. *)
Definition listenerId (groupId : Z) (groupConfig : GroupConfig) : string :=
  pretty groupId ++ "_" ++ tokenAddress groupConfig.

(** [simulateBuyTransactions]: the fallback feed, stored under the key
    with [_sim] appended. *)
Definition simulateBuyTransactions (groupId : Z) (groupConfig : GroupConfig)
    (w : World) : World :=
  let w := logger_log "Setting up transaction simulator" w in
  let '(interval, w) := setInterval (SimPoll groupId groupConfig) w in
  let '(r, w) := fresh w in
  set_activeListeners
    (<[listenerId groupId groupConfig ++ "_sim"
       := {| ref := r; intervalId := Some interval |}]>
       (activeListeners w)) w.

(** What one firing of an interval draws: the value of [Math.random()]
    compared with the threshold, the transaction assembled from the other
    random draws, and the outcome of the delivery. *)
Record Draw : Type := {
  chance : Q;
  sample : Tx;
  delivered : bool
}.

Definition gt (a b : Q) : bool := negb (Qle_bool a b).

(** One firing of timer [tid].  A cleared timer does not fire. *)
Definition tick (env : ProcessEnv) (tid : nat) (d : Draw) (w : World) : World :=
  match timers w !! tid with
  | None => w
  | Some (BnbPoll callback) =>
      if gt (chance d) (7 # 10)
      then call env (delivered d) callback (sample d) w
      else w
  | Some (SolanaPoll callback) =>
      if gt (chance d) (75 # 100)
      then call env (delivered d) callback (sample d) w
      else w
  | Some (SimPoll groupId groupConfig) =>
      let active :=
        match getGroup groupId w with
        | Some groupData => isActive groupData
        | None => false
        end in
      if negb active then
        clearInterval tid
          (logger_log "Stopping transaction simulator - group inactive" w)
      else if gt (chance d) (7 # 10) then w
      else sendBuyNotification env (delivered d) groupId groupConfig (sample d) false w
  end.

(* ===================================================================== *)
(** * Starting and stopping listeners *)
(* ===================================================================== *)

(** [startBlockchainListener(groupId, groupConfig)]. *)
Definition startBlockchainListener (env : ProcessEnv) (opens : bool)
    (groupId : Z) (groupConfig : GroupConfig) (w : World) : World :=
  let w := logger_log "Starting blockchain listener" w in
  let id := listenerId groupId groupConfig in
  let w :=
    match activeListeners w !! id with
    | Some existing =>
        let w := stop existing w in
        set_activeListeners (delete id (activeListeners w)) w
    | None => w
    end in
  let callback := Notify groupId groupConfig in
  let opened :=
    if is_BNB groupConfig
    then monitorBnbDexSwaps env opens callback w
    else monitorSolanaDexSwaps opens callback w in
  match opened with
  | Some (listener, w) =>
      let w := set_activeListeners (<[id := listener]> (activeListeners w)) w in
      logger_log "Blockchain monitoring started successfully" w
  | None =>
      let w := logger_error "Failed to start blockchain monitoring" w in
      if production env then w
      else
        simulateBuyTransactions groupId groupConfig
          (logger_log "Falling back to transaction simulation for testing" w)
  end.

(** The body of the [forEach] in [stopBlockchainListener] for one key of
    the snapshot.  Reading a key that is gone makes [.stop] throw, which
    the [catch] logs. *)
Definition stop_key (groupId : Z) (w : World) (key : string) : World :=
  if String.prefix (pretty groupId ++ "_") key then
    match activeListeners w !! key with
    | Some l =>
        let w := stop l w in
        set_activeListeners (delete key (activeListeners w)) w
    | None => logger_error "Error stopping listener" w
    end
  else w.

(** [Object.keys(activeListeners)]. *)
Definition keys (w : World) : list string :=
  (map_to_list (activeListeners w)).*1.

(** [stopBlockchainListener(groupId)]. *)
Definition stopBlockchainListener (groupId : Z) (w : World) : World :=
  let w := logger_log "Stopping blockchain listeners for group" w in
  foldl (stop_key groupId) w (keys w).

(* ===================================================================== *)
(** * Completing the setup ([finalizeSetup]) *)
(* ===================================================================== *)

(** What the wizard has collected when it reaches its last step. *)
Record SetupData : Type := {
  setup_chain : string;
  setup_tokenAddress : string;
  setup_tokenInfo : TokenInfo;
  setup_emoji : string;
  setup_imageFileId : string
}.

Definition setup_complete_text (setupData : SetupData) : string :=
  "✅ <b>Setup Complete!</b>" ++ nl ++ nl
  ++ "🔍 <b>Tracking Configuration:</b>" ++ nl
  ++ "• Network: <b>" ++ setup_chain setupData ++ "</b>" ++ nl
  ++ "• Token: <b>" ++ name (setup_tokenInfo setupData) ++ " ("
  ++ symbol (setup_tokenInfo setupData) ++ ")</b>" ++ nl
  ++ "• Contract: <code>" ++ setup_tokenAddress setupData ++ "</code>" ++ nl
  ++ "• Emoji: " ++ setup_emoji setupData ++ nl ++ nl
  ++ "🚀 The bot is now tracking all purchases for this token!".

(** The configuration [finalizeSetup] builds at time [t]. *)
Definition groupConfig_of (setupData : SetupData) (t : Z) : GroupConfig :=
  {| chain := setup_chain setupData;
     tokenAddress := setup_tokenAddress setupData;
     tokenInfo := Some (setup_tokenInfo setupData);
     emoji := setup_emoji setupData;
     imageFileId := setup_imageFileId setupData;
     isActive := true;
     createdAt := t;
     updatedAt := t |}.

(** [finalizeSetup(ctx, setupData)] in chat [chatId].  [replied] is the
    outcome of the confirmation message: when it fails the listener is
    not started. *)
Definition finalizeSetup (env : ProcessEnv) (replied opens : bool)
    (chatId : Z) (setupData : SetupData) (w : World) : World :=
  let groupConfig := groupConfig_of setupData (now w) in
  let w := saveGroup chatId groupConfig w in
  let imageSource :=
    if String.eqb (setup_imageFileId setupData) "default"
    then LocalFile "assets/default.png"
    else FileId (setup_imageFileId setupData) in
  let w := emit (ReplyWithPhoto chatId imageSource
                   (setup_complete_text setupData) replied) w in
  if replied then
    logger_log "Setup completed"
      (startBlockchainListener env opens chatId groupConfig w)
  else
    emit (Reply chatId
            "An error occurred during setup finalization. Please try again with /setup.")
      (logger_error "Error in setup finalization" w).

(* ===================================================================== *)
(** * Runs of the bot *)
(* ===================================================================== *)

(** What can happen to a running bot, one turn of the event loop each. *)
Inductive Op : Type :=
  | FinalizeSetup (replied opens : bool) (chatId : Z) (setupData : SetupData)
  | Start (opens : bool) (groupId : Z) (groupConfig : GroupConfig)
  | StopGroup (groupId : Z)
  | Tick (tid : nat) (d : Draw)
  | Elapse (t : Z).

Definition step (env : ProcessEnv) (w : World) (op : Op) : World :=
  match op with
  | FinalizeSetup replied opens chatId setupData =>
      finalizeSetup env replied opens chatId setupData w
  | Start opens groupId groupConfig =>
      startBlockchainListener env opens groupId groupConfig w
  | StopGroup groupId => stopBlockchainListener groupId w
  | Tick tid d => tick env tid d w
  | Elapse t => set_now t w
  end.

Definition run (env : ProcessEnv) (ops : list Op) (w : World) : World :=
  foldl (step env) w ops.

(** The bot as it is launched: nothing registered, no timer. *)
Definition initial : World :=
  {| activeListeners := ∅; timers := ∅; nextId := 0; groups := ∅;
     now := 0; trace := [] |}.

(** The events a computation added to the trace. *)
Definition new_events (before after : World) : list Event :=
  drop (length (trace before)) (trace after).

(** The payloads handed to the delivery sink. *)
Definition payloads (events : list Event) : list (Z * Photo * string) :=
  omap (fun e =>
          match e with
          | SendPhoto chatId photo text _ => Some (chatId, photo, text)
          | _ => None
          end) events.

(** Identifiers are handed out in increasing order: every identifier in
    use is below the next one. *)
Definition well_formed (w : World) : Prop :=
  (forall tid cb, timers w !! tid = Some cb -> tid < nextId w)
  /\ (forall key l,
        activeListeners w !! key = Some l ->
        ref l < nextId w
        /\ forall tid, intervalId l = Some tid -> tid < nextId w).

(* ===================================================================== *)
(** * The feeds of [blockchain-monitor.js] *)
(* ===================================================================== *)

(** The stand-alone monitors keep a [running] flag beside their interval.
    The BNB monitor polls the chain with an asynchronous callback: a
    firing suspends at [await provider.getBlockNumber()] and resumes, in a
    later turn, when the request settles. *)
Module BlockchainMonitor.

(** What the owner of a feed observes, in order. *)
Inductive Obs : Type :=
  | Emitted (tx : Tx)
  | Logged (level : Level) (message : string)
  | StopReturned.

Record Feed : Type := {
  running : bool;
  checkInterval : bool;
  lastBlockNumber : Z;
  pending : nat;
  observed : list Obs
}.

(** The turns of the event loop that concern one feed: its interval
    fires, one suspended poll is resumed with the outcome of
    [getBlockNumber] (a block number, or a rejection), or the owner
    calls [stop].  A firing and a resumption carry the random draws
    made in that turn. *)
Inductive Input : Type :=
  | IntervalFires (chance : Q) (sample : Tx)
  | BlockNumberSettles (currentBlock : option Z) (chance : Q) (sample : Tx)
  | Stop.

Definition observe (o : Obs) (f : Feed) : Feed :=
  {| running := running f; checkInterval := checkInterval f;
     lastBlockNumber := lastBlockNumber f; pending := pending f;
     observed := observed f ++ [o] |}.

Definition set_pending (n : nat) (f : Feed) : Feed :=
  {| running := running f; checkInterval := checkInterval f;
     lastBlockNumber := lastBlockNumber f; pending := n;
     observed := observed f |}.

Definition set_lastBlockNumber (b : Z) (f : Feed) : Feed :=
  {| running := running f; checkInterval := checkInterval f;
     lastBlockNumber := b; pending := pending f;
     observed := observed f |}.

(** The [stop] of both monitors: a log line, [running = false],
    [clearInterval(checkInterval)]. *)
Definition stop (message : string) (f : Feed) : Feed :=
  let f := observe (Logged INFO message) f in
  observe StopReturned
    {| running := false; checkInterval := false;
       lastBlockNumber := lastBlockNumber f; pending := pending f;
       observed := observed f |}.

(** [monitorBnbDexSwaps]: the feed once the address has been accepted
    and the first block number fetched. *)
Definition monitorBnbDexSwaps (validAddress : bool) (firstBlock : option Z)
  : option Feed :=
  if validAddress then
    match firstBlock with
    | Some b =>
        Some {| running := true; checkInterval := true;
                lastBlockNumber := b; pending := 0;
                observed := [Logged INFO "Starting BNB Chain DEX monitoring"] |}
    | None => None
    end
  else None.

(** One turn of the BNB monitor. *)
Definition bnb_step (f : Feed) (i : Input) : Feed :=
  match i with
  | IntervalFires _ _ =>
      if checkInterval f then
        if negb (running f) then f
        else set_pending (S (pending f)) f
      else f
  | BlockNumberSettles settled chance sample =>
      match pending f with
      | O => f
      | S n =>
          let f := set_pending n f in
          match settled with
          | None => observe (Logged ERROR "Error monitoring BNB Chain") f
          | Some currentBlock =>
              if (lastBlockNumber f <? currentBlock)%Z then
                let f := observe
                           (Logged INFO
                              ("Processing new blocks: "
                               ++ pretty (lastBlockNumber f + 1)%Z
                               ++ " to " ++ pretty currentBlock)) f in
                let f := if gt chance (7 # 10)
                         then observe (Emitted sample) f else f in
                set_lastBlockNumber currentBlock f
              else f
          end
      end
  | Stop => stop "Stopping BNB Chain monitoring" f
  end.

(** [monitorSolanaDexSwaps]: the feed once the address has been
    accepted. *)
Definition monitorSolanaDexSwaps (validAddress : bool) : option Feed :=
  if validAddress then
    Some {| running := true; checkInterval := true;
            lastBlockNumber := 0; pending := 0;
            observed := [Logged INFO "Starting Solana DEX monitoring"] |}
  else None.

(** One turn of the Solana monitor, whose interval callback runs to
    completion within the turn. *)
Definition solana_step (f : Feed) (i : Input) : Feed :=
  match i with
  | IntervalFires chance sample =>
      if checkInterval f then
        if negb (running f) then f
        else if gt chance (7 # 10) then observe (Emitted sample) f
        else f
      else f
  | BlockNumberSettles _ _ _ => f
  | Stop => stop "Stopping Solana monitoring" f
  end.

(** [stop] has returned. *)
Definition has_stopped (l : list Obs) : bool :=
  existsb (fun o => match o with StopReturned => true | _ => false end) l.

(** The feed as created, and the turns it then takes. *)
Definition bnb_run (firstBlock : Z) (inputs : list Input) : option Feed :=
  match monitorBnbDexSwaps true (Some firstBlock) with
  | Some f => Some (foldl bnb_step f inputs)
  | None => None
  end.

(** No event is emitted once [stop] has returned. *)
Fixpoint quiet_after_stop (stopped : bool) (l : list Obs) : bool :=
  match l with
  | [] => true
  | StopReturned :: r => quiet_after_stop true r
  | Emitted _ :: r => negb stopped && quiet_after_stop stopped r
  | Logged _ _ :: r => quiet_after_stop stopped r
  end.

End BlockchainMonitor.

(** The feeds of the bot itself, seen through the trace: once [stop] has
    been called on listener [l], no purchase is delivered on behalf of its
    timer.  [deliveries_of tid w ops] collects the payloads produced by
    the firings of timer [tid] along a run. *)
Fixpoint deliveries_of (env : ProcessEnv) (tid : nat) (ops : list Op) (w : World)
  : list (Z * Photo * string) :=
  match ops with
  | [] => []
  | op :: rest =>
      let w' := step env w op in
      (match op with
       | Tick t _ => if Nat.eqb t tid then payloads (new_events w w') else []
       | _ => []
       end) ++ deliveries_of env tid rest w'
  end.

(** Firing [tid] with draw [d] in [w] makes the feed hand a purchase to
    the callback bound to [(groupId, groupConfig)]. *)
Definition emits (tid : nat) (d : Draw) (w : World)
    (groupId : Z) (groupConfig : GroupConfig) : Prop :=
  (timers w !! tid = Some (BnbPoll (Notify groupId groupConfig))
   /\ gt (chance d) (7 # 10) = true)
  \/ (timers w !! tid = Some (SolanaPoll (Notify groupId groupConfig))
      /\ gt (chance d) (75 # 100) = true)
  \/ (timers w !! tid = Some (SimPoll groupId groupConfig)
      /\ (exists groupData, getGroup groupId w = Some groupData
                            /\ isActive groupData = true)
      /\ gt (chance d) (7 # 10) = false).

(** [groupConfig] with another [tokenInfo]. *)
Definition with_tokenInfo (t : option TokenInfo) (c : GroupConfig) : GroupConfig :=
  {| chain := chain c; tokenAddress := tokenAddress c; tokenInfo := t;
     emoji := emoji c; imageFileId := imageFileId c; isActive := isActive c;
     createdAt := createdAt c; updatedAt := updatedAt c |}.

(** The listener a successful [startBlockchainListener] creates in [w]. *)
Definition opened_listener (env : ProcessEnv) (groupConfig : GroupConfig)
    (w : World) : Listener :=
  if is_BNB groupConfig && production env
  then {| ref := nextId w; intervalId := None |}
  else {| ref := S (nextId w); intervalId := Some (nextId w) |}.

(** The interval callback of the feed opened for [(groupId, groupConfig)]. *)
Definition poll_of (groupId : Z) (groupConfig : GroupConfig) : IntervalCallback :=
  if is_BNB groupConfig
  then BnbPoll (Notify groupId groupConfig)
  else SolanaPoll (Notify groupId groupConfig).

(** The timer table once [existing], if any, has been stopped. *)
Definition timers_without (existing : option Listener)
    (m : gmap nat IntervalCallback) : gmap nat IntervalCallback :=
  match existing with
  | Some {| intervalId := Some tid |} => delete tid m
  | _ => m
  end.

(** Sample data: the scenario of the design notes. *)
Definition rocket_config : GroupConfig :=
  {| chain := "BNB"; tokenAddress := "TOKEN1";
     tokenInfo := Some {| name := "Token One"; symbol := "TK1" |};
     emoji := "🚀"; imageFileId := "default"; isActive := true;
     createdAt := 0; updatedAt := 0 |}.

Definition sample_tx : Tx :=
  {| hash := "0xabc"; tokenAmount := "100"; nativeAmount := "0.01";
     usdAmount := "75.00"; buyer := "0xdead" |}.

Definition sample_setup (address : string) : SetupData :=
  {| setup_chain := "BNB"; setup_tokenAddress := address;
     setup_tokenInfo := {| name := "Token One"; symbol := "TK1" |};
     setup_emoji := "🚀"; setup_imageFileId := "default" |}.

(** The event is an invocation of a listener's [stop]. *)
Definition is_stop_call (e : Event) : Prop :=
  match e with
  | StopCalled _ => True
  | _ => False
  end.

(** The value [Math.random()] has to exceed for the feed opened for
    [groupConfig] to emit. *)
Definition threshold (groupConfig : GroupConfig) : Q :=
  if is_BNB groupConfig then 7 # 10 else 75 # 100.

(** The character [c] does not occur in [s]. *)
Fixpoint free_of (c : ascii) (s : string) : Prop :=
  match s with
  | EmptyString => True
  | String a r => a <> c /\ free_of c r
  end.

(** The registry key of the watch a monitor feed was opened for; the
    simulator is no monitor feed. *)
Definition feed_key (cb : IntervalCallback) : option string :=
  match cb with
  | BnbPoll (Notify groupId groupConfig) => Some (listenerId groupId groupConfig)
  | SolanaPoll (Notify groupId groupConfig) => Some (listenerId groupId groupConfig)
  | SimPoll _ _ => None
  end.

(** Every live timer is the interval of a monitor feed, and the listener
    registered under the key of that feed is the one holding it. *)
Definition feeds_registered (w : World) : Prop :=
  forall tid cb, timers w !! tid = Some cb ->
    exists key r,
      feed_key cb = Some key
      /\ activeListeners w !! key = Some {| ref := r; intervalId := Some tid |}.

(** The operation does not fall back on the simulator: the bot runs in
    production, or the feed the operation starts opens. *)
Definition no_fallback (env : ProcessEnv) (op : Op) : bool :=
  production env
  || match op with
     | FinalizeSetup replied opens _ _ => negb replied || opens
     | Start opens _ _ => opens
     | _ => true
     end.

(** No two registered listeners hold the same timer. *)
Definition no_shared_timer (w : World) : Prop :=
  forall k1 k2 l1 l2 tid,
    activeListeners w !! k1 = Some l1 ->
    activeListeners w !! k2 = Some l2 ->
    intervalId l1 = Some tid -> intervalId l2 = Some tid -> k1 = k2.

(** The number of purchases a feed of [blockchain-monitor.js] has handed
    to its callback. *)
Definition emitted_count (l : list BlockchainMonitor.Obs) : nat :=
  length (List.filter (fun o => match o with
                                | BlockchainMonitor.Emitted _ => true
                                | _ => false
                                end) l).

(** The number of firings of the interval among the inputs, and whether
    the owner calls [stop] among them. *)
Definition firings (inputs : list BlockchainMonitor.Input) : nat :=
  length (List.filter (fun i => match i with
                                | BlockchainMonitor.IntervalFires _ _ => true
                                | _ => false
                                end) inputs).

Definition stop_requested (inputs : list BlockchainMonitor.Input) : bool :=
  existsb (fun i => match i with
                    | BlockchainMonitor.Stop => true
                    | _ => false
                    end) inputs.

(* ===================================================================== *)
(** * The setup wizard *)
(* ===================================================================== *)

(** [String.prototype.trim], on the UTF-8 bytes: the white space that
    [parseFloat] skips, removed at both ends. *)
Fixpoint trim_end (l : list N) : list N :=
  match l with
  | [] => []
  | c :: r =>
      match skip_white_space (S (length r)) l with
      | [] => []
      | _ :: _ => c :: trim_end r
      end
  end.

Definition of_codes (l : list N) : string :=
  string_of_list_ascii (map ascii_of_N l).

Definition trim (s : string) : string :=
  of_codes (trim_end (skip_white_space (String.length s) (codes s))).

(** The object kept in [setupStates] while a chat goes through the wizard;
    the handlers add its fields one by one. *)
Record SetupObject : Type := {
  wizard_step : string;
  wizard_chain : option string;
  wizard_tokenAddress : option string;
  wizard_tokenInfo : option TokenInfo;
  wizard_emoji : option string;
  wizard_imageFileId : option string
}.

(** A handler waiting at an [await] whose outcome decides what it does to
    the state next, with what it has captured: the chat, the reference to
    the setup object it read, and the value it is about to store. *)
Inductive Suspended : Type :=
  | AwaitAdmins (chatId : Z)
  | AwaitLoadingReply (chatId : Z) (setupData : nat) (tokenAddress : string)
  | AwaitValidation (chatId : Z) (setupData : nat) (tokenAddress : string)
  | AwaitEmojiAck (chatId : Z) (setupData : nat) (emoji : string)
  | AwaitSkipAck (chatId : Z) (setupData : nat).

(** The state of the wizard: [setupStates] maps a chat to a reference into
    the heap of setup objects, so that a handler resumed after an [await]
    still acts on the object it read before.  The prompts, acknowledgements
    and console lines of the handlers are not recorded. *)
Record Wizard : Type := {
  setupStates : gmap Z nat;
  heap : gmap nat SetupObject;
  nextObject : nat;
  suspended : gmap nat Suspended;
  nextSuspended : nat;
  bot : World
}.

(** The turns of the event loop that concern the wizard: an update handed
    to its handler, or the settling of the promise a handler waits for. *)
Inductive Update : Type :=
  | SetupCommand (chatId : Z) (chatType : string)
  | ChainAction (chatId : Z) (choice : string)
  | TextMessage (chatId : Z) (text : string)
  | EmojiAction (chatId : Z) (emoji : string)
  | PhotoMessage (chatId : Z) (fileId : string) (replied opens : bool)
  | SkipImageAction (chatId : Z)
  | CancelAction (chatId : Z)
  | AdminsArrive (k : nat) (botIsAdmin : option bool)
  | LoadingReplySettles (k : nat) (sent : bool)
  | ValidationSettles (k : nat) (result : option TokenInfo)
  | EmojiAckSettles (k : nat) (sent : bool)
  | SkipAckSettles (k : nat) (sent : bool) (replied opens : bool).

Definition set_setupStates (m : gmap Z nat) (w : Wizard) : Wizard :=
  {| setupStates := m; heap := heap w; nextObject := nextObject w;
     suspended := suspended w; nextSuspended := nextSuspended w; bot := bot w |}.

Definition set_heap (m : gmap nat SetupObject) (w : Wizard) : Wizard :=
  {| setupStates := setupStates w; heap := m; nextObject := nextObject w;
     suspended := suspended w; nextSuspended := nextSuspended w; bot := bot w |}.

Definition set_bot (b : World) (w : Wizard) : Wizard :=
  {| setupStates := setupStates w; heap := heap w; nextObject := nextObject w;
     suspended := suspended w; nextSuspended := nextSuspended w; bot := b |}.

(** The handler reaches its [await]. *)
Definition suspend (s : Suspended) (w : Wizard) : Wizard :=
  {| setupStates := setupStates w; heap := heap w; nextObject := nextObject w;
     suspended := <[nextSuspended w := s]> (suspended w);
     nextSuspended := S (nextSuspended w); bot := bot w |}.

(** The promise has settled: the handler is no longer waiting. *)
Definition settle (k : nat) (w : Wizard) : Wizard :=
  {| setupStates := setupStates w; heap := heap w; nextObject := nextObject w;
     suspended := delete k (suspended w);
     nextSuspended := nextSuspended w; bot := bot w |}.

(** [setupStates[chatId] = { step: 'blockchain_selection' }]. *)
Definition new_setup (chatId : Z) (w : Wizard) : Wizard :=
  {| setupStates := <[chatId := nextObject w]> (setupStates w);
     heap := <[nextObject w :=
                 {| wizard_step := "blockchain_selection"; wizard_chain := None;
                    wizard_tokenAddress := None; wizard_tokenInfo := None;
                    wizard_emoji := None; wizard_imageFileId := None |}]> (heap w);
     nextObject := S (nextObject w);
     suspended := suspended w; nextSuspended := nextSuspended w; bot := bot w |}.

(** [const setupData = setupStates[chatId]], with the object read. *)
Definition current (chatId : Z) (w : Wizard) : option (nat * SetupObject) :=
  match setupStates w !! chatId with
  | Some r =>
      match heap w !! r with
      | Some o => Some (r, o)
      | None => None
      end
  | None => None
  end.

(** The object [r] is mutated into [o] and [setupStates[chatId] = setupData]
    stores the reference again. *)
Definition store (chatId : Z) (r : nat) (o : SetupObject) (w : Wizard) : Wizard :=
  set_setupStates (<[chatId := r]> (setupStates w))
    (set_heap (<[r := o]> (heap w)) w).

Definition with_step (s : string) (o : SetupObject) : SetupObject :=
  {| wizard_step := s; wizard_chain := wizard_chain o;
     wizard_tokenAddress := wizard_tokenAddress o;
     wizard_tokenInfo := wizard_tokenInfo o; wizard_emoji := wizard_emoji o;
     wizard_imageFileId := wizard_imageFileId o |}.

Definition with_chain (c : string) (o : SetupObject) : SetupObject :=
  {| wizard_step := wizard_step o; wizard_chain := Some c;
     wizard_tokenAddress := wizard_tokenAddress o;
     wizard_tokenInfo := wizard_tokenInfo o; wizard_emoji := wizard_emoji o;
     wizard_imageFileId := wizard_imageFileId o |}.

Definition with_token (a : string) (t : TokenInfo) (o : SetupObject) : SetupObject :=
  {| wizard_step := wizard_step o; wizard_chain := wizard_chain o;
     wizard_tokenAddress := Some a; wizard_tokenInfo := Some t;
     wizard_emoji := wizard_emoji o;
     wizard_imageFileId := wizard_imageFileId o |}.

Definition with_emoji (e : string) (o : SetupObject) : SetupObject :=
  {| wizard_step := wizard_step o; wizard_chain := wizard_chain o;
     wizard_tokenAddress := wizard_tokenAddress o;
     wizard_tokenInfo := wizard_tokenInfo o; wizard_emoji := Some e;
     wizard_imageFileId := wizard_imageFileId o |}.

Definition with_imageFileId (i : string) (o : SetupObject) : SetupObject :=
  {| wizard_step := wizard_step o; wizard_chain := wizard_chain o;
     wizard_tokenAddress := wizard_tokenAddress o;
     wizard_tokenInfo := wizard_tokenInfo o; wizard_emoji := wizard_emoji o;
     wizard_imageFileId := Some i |}.

(** The setup data [finalizeSetup] reads off the object, when none of the
    fields it uses is missing. *)
Definition setup_data (o : SetupObject) : option SetupData :=
  match wizard_chain o, wizard_tokenAddress o, wizard_tokenInfo o,
        wizard_emoji o, wizard_imageFileId o with
  | Some c, Some a, Some t, Some e, Some i =>
      Some {| setup_chain := c; setup_tokenAddress := a; setup_tokenInfo := t;
              setup_emoji := e; setup_imageFileId := i |}
  | _, _, _, _, _ => None
  end.

(** The end of the photo and skip handlers: the image is stored in the
    object, [finalizeSetup] is called and the chat leaves [setupStates].
    The result is [None] when [finalizeSetup] would be entered with a field
    of the setup data missing, which its embedding does not cover. *)
Definition finish (env : ProcessEnv) (replied opens : bool) (chatId : Z)
    (r : nat) (o : SetupObject) (image : string) (w : Wizard) : option Wizard :=
  let o := with_imageFileId image o in
  match setup_data o with
  | Some setupData =>
      Some (set_setupStates (delete chatId (setupStates w))
              (set_bot (finalizeSetup env replied opens chatId setupData (bot w))
                 (set_heap (<[r := o]> (heap w)) w)))
  | None => None
  end.

(** One turn of the wizard. *)
Definition wizard_turn (env : ProcessEnv) (w : Wizard) (u : Update)
  : option Wizard :=
  match u with
  | SetupCommand chatId chatType =>
      if negb (String.eqb chatType "group")
         && negb (String.eqb chatType "supergroup")
      then Some w
      else Some (suspend (AwaitAdmins chatId) w)
  | AdminsArrive k botIsAdmin =>
      match suspended w !! k with
      | Some (AwaitAdmins chatId) =>
          let w := settle k w in
          match botIsAdmin with
          | Some true => Some (new_setup chatId w)
          | _ => Some w
          end
      | _ => Some w
      end
  | ChainAction chatId choice =>
      match current chatId w with
      | Some (r, o) =>
          if String.eqb (wizard_step o) "blockchain_selection" then
            let chain := if String.eqb choice "bnb" then "BNB" else "Solana" in
            Some (store chatId r (with_chain chain (with_step "token_address" o)) w)
          else Some w
      | None => Some w
      end
  | TextMessage chatId text =>
      match current chatId w with
      | Some (r, o) =>
          if String.eqb (wizard_step o) "token_address"
          then Some (suspend (AwaitLoadingReply chatId r (trim text)) w)
          else Some w
      | None => Some w
      end
  | LoadingReplySettles k sent =>
      match suspended w !! k with
      | Some (AwaitLoadingReply chatId r tokenAddress) =>
          let w := settle k w in
          if sent then
            match heap w !! r with
            | Some o =>
                Some (suspend (AwaitValidation chatId r tokenAddress)
                        (store chatId r (with_step "validating" o) w))
            | None => Some w
            end
          else Some w
      | _ => Some w
      end
  | ValidationSettles k result =>
      match suspended w !! k with
      | Some (AwaitValidation chatId r tokenAddress) =>
          let w := settle k w in
          match heap w !! r with
          | Some o =>
              match result with
              | Some tokenInfo =>
                  Some (store chatId r
                          (with_step "emoji_selection"
                             (with_token tokenAddress tokenInfo o)) w)
              | None => Some (store chatId r (with_step "token_address" o) w)
              end
          | None => Some w
          end
      | _ => Some w
      end
  | EmojiAction chatId emoji =>
      match current chatId w with
      | Some (r, o) =>
          if String.eqb (wizard_step o) "emoji_selection"
          then Some (suspend (AwaitEmojiAck chatId r emoji) w)
          else Some w
      | None => Some w
      end
  | EmojiAckSettles k sent =>
      match suspended w !! k with
      | Some (AwaitEmojiAck chatId r emoji) =>
          let w := settle k w in
          if sent then
            match heap w !! r with
            | Some o =>
                Some (store chatId r
                        (with_step "image_upload" (with_emoji emoji o)) w)
            | None => Some w
            end
          else Some w
      | _ => Some w
      end
  | PhotoMessage chatId fileId replied opens =>
      match current chatId w with
      | Some (r, o) =>
          if String.eqb (wizard_step o) "image_upload"
          then finish env replied opens chatId r o fileId w
          else Some w
      | None => Some w
      end
  | SkipImageAction chatId =>
      match current chatId w with
      | Some (r, o) =>
          if String.eqb (wizard_step o) "image_upload"
          then Some (suspend (AwaitSkipAck chatId r) w)
          else Some w
      | None => Some w
      end
  | SkipAckSettles k sent replied opens =>
      match suspended w !! k with
      | Some (AwaitSkipAck chatId r) =>
          let w := settle k w in
          if sent then
            match heap w !! r with
            | Some o => finish env replied opens chatId r o "default" w
            | None => Some w
            end
          else Some w
      | _ => Some w
      end
  | CancelAction chatId =>
      Some (set_setupStates (delete chatId (setupStates w)) w)
  end.

Fixpoint wizard_run (env : ProcessEnv) (us : list Update) (w : Wizard)
  : option Wizard :=
  match us with
  | [] => Some w
  | u :: rest =>
      match wizard_turn env w u with
      | Some w' => wizard_run env rest w'
      | None => None
      end
  end.

(** The wizard as the bot is launched. *)
Definition wizard_initial : Wizard :=
  {| setupStates := ∅; heap := ∅; nextObject := 0; suspended := ∅;
     nextSuspended := 0; bot := initial |}.

(** What an object holds when it has reached a step: the chain from
    [token_address] on, the token from [emoji_selection] on, the emoji at
    [image_upload]. *)
Definition has_chain (o : SetupObject) : Prop := wizard_chain o <> None.

Definition has_token (o : SetupObject) : Prop :=
  has_chain o /\ wizard_tokenAddress o <> None /\ wizard_tokenInfo o <> None.

Definition has_emoji (o : SetupObject) : Prop :=
  has_token o /\ wizard_emoji o <> None.




(** The fields an object holds are kept. *)
Definition grows (o o' : SetupObject) : Prop :=
  (has_chain o -> has_chain o')
  /\ (has_token o -> has_token o')
  /\ (has_emoji o -> has_emoji o').


(** Every configuration known to the bot, stored for a group or captured
    by a timer, carries its token identity. *)
Definition callback_config (cb : IntervalCallback) : GroupConfig :=
  match cb with
  | BnbPoll (Notify _ c) => c
  | SolanaPoll (Notify _ c) => c
  | SimPoll _ c => c
  end.


(** The group a timer's callback notifies. *)
Definition callback_group (cb : IntervalCallback) : Z :=
  match cb with
  | BnbPoll (Notify g _) => g
  | SolanaPoll (Notify g _) => g
  | SimPoll g _ => g
  end.

(** The trimmed string begins a numeric literal: a digit, or a dot
    followed by a digit. *)
Definition is_digit (c : N) : bool := ((48 <=? c) && (c <=? 57))%N.

Definition literal_start (l : list N) : bool :=
  match l with
  | c :: r =>
      is_digit c
      || ((c =? 46)%N && match r with
                         | c' :: _ => is_digit c'
                         | [] => false
                         end)
  | [] => false
  end.

(** What is left of the string once the leading white space and the sign
    are read. *)
Definition unsigned_part (s : string) : list N :=
  snd (sign (skip_white_space (String.length s) (codes s))).

(* ===================================================================== *)
(** * Properties of strings and numbers *)
(* ===================================================================== *)

Lemma append_cons (ch : ascii) (a b : string) :
  String ch a ++ b = String ch (a ++ b).
Proof. reflexivity. Qed.

Lemma append_assoc (a b c : string) : (a ++ b) ++ c = a ++ (b ++ c).
Proof.
  induction a as [|ch a IH]; [reflexivity|].
  now rewrite !append_cons, IH.
Qed.

Lemma prefix_append (p s : string) : String.prefix p (p ++ s) = true.
Proof.
  induction p as [|ch p IH].
  - now destruct s.
  - rewrite append_cons. simpl.
    destruct (ascii_dec ch ch) as [_|Hne]; [exact IH | now elim Hne].
Qed.

Lemma contains_append_l (s a b : string) : contains s a -> contains s (a ++ b).
Proof.
  intros (pre & post & ->). exists pre, (post ++ b).
  now rewrite !append_assoc.
Qed.

Lemma contains_append_r (s a b : string) : contains s b -> contains s (a ++ b).
Proof.
  intros (pre & post & ->). exists (a ++ pre), post.
  now rewrite !append_assoc.
Qed.

Lemma lt_Finite (a b : Q) : lt (Finite a) (Finite b) = true <-> (a < b)%Q.
Proof.
  simpl. rewrite negb_true_iff. split.
  - intros H. apply Qnot_le_lt. intros Hle.
    apply Qle_bool_iff in Hle. congruence.
  - intros H. destruct (Qle_bool b a) eqn:E; [|reflexivity].
    apply Qle_bool_iff in E. exfalso. now apply (Qlt_not_le a b).
Qed.

Lemma lt_Finite_false (a b : Q) : lt (Finite a) (Finite b) = false <-> (b <= a)%Q.
Proof.
  simpl. rewrite negb_false_iff. apply Qle_bool_iff.
Qed.

Lemma emojiCount_values (v : Number) :
  emojiCount v = 1 \/ emojiCount v = 3 \/ emojiCount v = 5 \/ emojiCount v = 10.
Proof.
  unfold emojiCount.
  destruct (lt v (Finite 50)); [now left|].
  destruct (lt v (Finite 200)); [now right; left|].
  destruct (lt v (Finite 1000)); [now right; right; left|].
  now right; right; right.
Qed.

(* ===================================================================== *)
(** * The tiers *)
(* ===================================================================== *)

(** C2.  The number of repetitions of the emoji is a function of the parsed
    USD amount alone, with the buckets: below 50 one repetition, from 50
    and below 200 three, from 200 and below 1000 five, from 1000 on ten,
    and never more than ten; the amounts 49.99, 50.00, 199.99, 1000.00 and
    999999 give 1, 3, 3, 10 and 10. *)
Theorem emoji_tiers :
  (forall groupConfig tx,
      emojiString groupConfig tx
      = repeat_string (emoji groupConfig) (emojiCount (parseFloat (usdAmount tx))))
  /\ (forall usd : Q,
        ((usd < 50)%Q -> emojiCount (Finite usd) = 1)
        /\ ((50 <= usd)%Q -> (usd < 200)%Q -> emojiCount (Finite usd) = 3)
        /\ ((200 <= usd)%Q -> (usd < 1000)%Q -> emojiCount (Finite usd) = 5)
        /\ ((1000 <= usd)%Q -> emojiCount (Finite usd) = 10))
  /\ emojiCount (Infinity true) = 1
  /\ emojiCount (Infinity false) = 10
  /\ (forall v : Number, emojiCount v <= 10)
  /\ emojiCount (parseFloat "49.99") = 1
  /\ emojiCount (parseFloat "50.00") = 3
  /\ emojiCount (parseFloat "199.99") = 3
  /\ emojiCount (parseFloat "1000.00") = 10
  /\ emojiCount (parseFloat "999999") = 10.
Proof.
  split; [reflexivity|].
  split.
  { intros usd. unfold emojiCount. repeat split.
    - intros H. apply lt_Finite in H. now rewrite H.
    - intros H1 H2. apply lt_Finite_false in H1. apply lt_Finite in H2.
      now rewrite H1, H2.
    - intros H1 H2.
      assert (H0 : (50 <= usd)%Q) by lra.
      apply lt_Finite_false in H0, H1. apply lt_Finite in H2.
      now rewrite H0, H1, H2.
    - intros H1.
      assert (H0 : (50 <= usd)%Q) by lra.
      assert (H2 : (200 <= usd)%Q) by lra.
      apply lt_Finite_false in H0, H1, H2.
      now rewrite H0, H2, H1. }
  split; [reflexivity|]. split; [reflexivity|].
  split.
  { intros v. destruct (emojiCount_values v) as [H|[H|[H|H]]]; rewrite H; lia. }
  repeat split; vm_compute; reflexivity.
Qed.

(** C10.  When the USD amount does not parse ([parseFloat] gives NaN) every
    comparison is false and the tier is the highest: the emoji line of the
    caption holds the emoji ten times. *)
Theorem nan_gets_ten_emojis (env : ProcessEnv) (groupConfig : GroupConfig)
    (tx : Tx) (isSample : bool) :
  parseFloat (usdAmount tx) = NaN ->
  emojiCount (parseFloat (usdAmount tx)) = 10
  /\ emojiString groupConfig tx = repeat_string (emoji groupConfig) 10
  /\ exists rest : string,
       caption env groupConfig tx isSample
       = ("<b>NEW BUY" ++ (if isSample then " (SAMPLE)" else EmptyString)
            ++ "</b>" ++ nl)
         ++ (repeat_string (emoji groupConfig) 10 ++ nl ++ nl) ++ rest.
Proof.
  intros HNaN. unfold caption, emojiString. rewrite HNaN.
  split; [reflexivity|]. split; [reflexivity|].
  eexists. reflexivity.
Qed.

Lemma nan_gets_ten_emojis_witness :
  let tx := {| hash := "0xabc"; tokenAmount := "100"; nativeAmount := "0.01";
               usdAmount := "undefined"; buyer := "0xdead" |} in
  parseFloat (usdAmount tx) = NaN
  /\ emojiString rocket_config tx = "🚀🚀🚀🚀🚀🚀🚀🚀🚀🚀".
Proof.
  split; [reflexivity|].
  apply (nan_gets_ten_emojis default_env rocket_config
           {| hash := "0xabc"; tokenAmount := "100"; nativeAmount := "0.01";
              usdAmount := "undefined"; buyer := "0xdead" |} false).
  reflexivity.
Defined.

Lemma emoji_tiers_witness :
  emojiCount (Finite (4999 # 100)) = 1
  /\ emojiCount (Finite 50) = 3
  /\ emojiCount (Finite 200) = 5
  /\ emojiCount (Finite 1000) = 10.
Proof.
  destruct emoji_tiers as (_ & H & _).
  split; [|split; [|split]].
  - apply (H (4999 # 100)). reflexivity.
  - apply (H 50%Q); [discriminate | reflexivity].
  - apply (H 200%Q); [discriminate | reflexivity].
  - apply (H 1000%Q). discriminate.
Defined.

(* ===================================================================== *)
(** * The caption *)
(* ===================================================================== *)

Lemma is_BNB_true (groupConfig : GroupConfig) :
  is_BNB groupConfig = true <-> chain groupConfig = "BNB".
Proof. apply String.eqb_eq. Qed.

Lemma is_BNB_false (groupConfig : GroupConfig) :
  is_BNB groupConfig = false <-> chain groupConfig <> "BNB".
Proof. apply String.eqb_neq. Qed.

(** C8.  The caption names the native currency of the network, BNB when
    the configured chain is BNB and SOL otherwise, after the native
    amount, and links to the explorer URL, which is the configured
    explorer base of that network followed by the transaction hash
    unchanged.  With nothing set in the environment, chain BNB and hash
    0xabc give https://bscscan.com/tx/0xabc. *)
Theorem caption_currency_and_explorer_url (env : ProcessEnv)
    (groupConfig : GroupConfig) (tx : Tx) (isSample : bool) :
  (chain groupConfig = "BNB" ->
     nativeCurrency groupConfig = "BNB"
     /\ explorerUrl env groupConfig tx
        = or_default (BNB_EXPLORER env) "https://bscscan.com/tx/" ++ hash tx)
  /\ (chain groupConfig <> "BNB" ->
        nativeCurrency groupConfig = "SOL"
        /\ explorerUrl env groupConfig tx
           = or_default (SOLANA_EXPLORER env) "https://solscan.io/tx/" ++ hash tx)
  /\ contains (nativeAmount tx ++ " " ++ nativeCurrency groupConfig ++ "</b>")
       (caption env groupConfig tx isSample)
  /\ contains ("<a href=" ++ dquote ++ explorerUrl env groupConfig tx ++ dquote ++ ">")
       (caption env groupConfig tx isSample)
  /\ explorerUrl default_env rocket_config sample_tx = "https://bscscan.com/tx/0xabc".
Proof.
  split; [|split; [|split; [|split]]].
  - intros H. apply is_BNB_true in H.
    unfold nativeCurrency, explorerUrl. now rewrite H.
  - intros H. apply is_BNB_false in H.
    unfold nativeCurrency, explorerUrl. now rewrite H.
  - unfold caption.
    do 4 apply contains_append_r. apply contains_append_l.
    exists "🪙 Value: <b>", (" ($" ++ usdAmount tx ++ ")" ++ nl).
    now rewrite !append_assoc.
  - unfold caption.
    do 6 apply contains_append_r.
    exists "🔗 ", "View Transaction</a>".
    now rewrite !append_assoc.
  - reflexivity.
Qed.

Lemma caption_currency_and_explorer_url_witness :
  (nativeCurrency rocket_config = "BNB"
   /\ explorerUrl default_env rocket_config sample_tx = "https://bscscan.com/tx/0xabc")
  /\ (nativeCurrency (with_tokenInfo None
                        {| chain := "Solana"; tokenAddress := "TOKEN1";
                           tokenInfo := None; emoji := "🚀";
                           imageFileId := "default"; isActive := true;
                           createdAt := 0; updatedAt := 0 |}) = "SOL").
Proof.
  split.
  - apply (caption_currency_and_explorer_url default_env rocket_config sample_tx false).
    reflexivity.
  - apply (caption_currency_and_explorer_url default_env
             (with_tokenInfo None
                {| chain := "Solana"; tokenAddress := "TOKEN1";
                   tokenInfo := None; emoji := "🚀";
                   imageFileId := "default"; isActive := true;
                   createdAt := 0; updatedAt := 0 |}) sample_tx false).
    discriminate.
Defined.

(* ===================================================================== *)
(** * Delivery of one notification *)
(* ===================================================================== *)

Lemma new_events_app (w w' : World) (l : list Event) :
  trace w' = (trace w ++ l)%list -> new_events w w' = l.
Proof.
  intros H. unfold new_events. rewrite H. apply drop_app_length.
Qed.

Lemma new_events_refl (w : World) : new_events w w = [].
Proof. apply new_events_app. now rewrite app_nil_r. Qed.

(** What [sendBuyNotification] does to the world: three entries on the
    trace, nothing else. *)
Lemma sendBuyNotification_trace env delivered groupId groupConfig tx isSample w :
  trace (sendBuyNotification env delivered groupId groupConfig tx isSample w)
  = (trace w ++
     [ Log INFO (now w) ("Sending buy notification"
                         ++ (if isSample then " (sample)" else EmptyString))%string;
       SendPhoto groupId (photo_of groupConfig)
         (caption env groupConfig tx isSample) delivered;
       if delivered
       then Log INFO (now w) "Buy notification sent successfully"
       else Log ERROR (now w) "Error sending buy notification" ])%list.
Proof.
  unfold sendBuyNotification, logger_log, logger_error, emit.
  destruct delivered; simpl; now rewrite <- !app_assoc.
Qed.

Lemma sendBuyNotification_frame env delivered groupId groupConfig tx isSample w :
  let w' := sendBuyNotification env delivered groupId groupConfig tx isSample w in
  activeListeners w' = activeListeners w
  /\ timers w' = timers w
  /\ nextId w' = nextId w
  /\ groups w' = groups w
  /\ now w' = now w.
Proof.
  unfold sendBuyNotification, logger_log, logger_error, emit.
  destruct delivered; simpl; auto.
Qed.

Lemma sendBuyNotification_payloads env delivered groupId groupConfig tx isSample w :
  payloads
    (new_events w (sendBuyNotification env delivered groupId groupConfig tx isSample w))
  = [(groupId, photo_of groupConfig, caption env groupConfig tx isSample)].
Proof.
  rewrite (new_events_app _ _ _ (sendBuyNotification_trace _ _ _ _ _ _ _)).
  now destruct delivered.
Qed.

(** C3 (as amended).  The formatter does not fail when the configuration
    has no token identity: it renders with the name [Unknown Token] and
    the symbol [TOKEN].  For every purchase and configuration, with or
    without identity, the caption is produced and handed to the sink, and
    producing it changes neither the registry, the timers nor the stored
    configurations. *)
Theorem formatter_defaults_missing_identity (env : ProcessEnv) (delivered : bool)
    (groupId : Z) (groupConfig : GroupConfig) (tx : Tx) (isSample : bool)
    (w : World) :
  let w' := sendBuyNotification env delivered groupId groupConfig tx isSample w in
  payloads (new_events w w')
  = [(groupId, photo_of groupConfig, caption env groupConfig tx isSample)]
  /\ (tokenInfo groupConfig = None ->
        caption env groupConfig tx isSample
        = caption env
            (with_tokenInfo (Some {| name := "Unknown Token"; symbol := "TOKEN" |})
               groupConfig) tx isSample)
  /\ activeListeners w' = activeListeners w
  /\ timers w' = timers w
  /\ groups w' = groups w.
Proof.
  intros w'. split; [apply sendBuyNotification_payloads|].
  split.
  - intros H. unfold caption, tokenInfo_or_default. now rewrite H.
  - destruct (sendBuyNotification_frame env delivered groupId groupConfig
                tx isSample w) as (H1 & H2 & _ & H3 & _).
    auto.
Qed.

Lemma formatter_defaults_missing_identity_witness :
  contains "<b>Unknown Token (TOKEN)</b>"
    (caption default_env (with_tokenInfo None rocket_config) sample_tx false).
Proof.
  destruct (formatter_defaults_missing_identity default_env true 42
              (with_tokenInfo None rocket_config) sample_tx false initial)
    as (_ & H & _).
  rewrite (H eq_refl).
  exists ("<b>NEW BUY</b>" ++ nl ++ "🚀🚀🚀" ++ nl ++ nl ++ "🔄 ").
  eexists. vm_compute. reflexivity.
Defined.

(** The claim as worded fails: with no token identity in the configuration
    the notification is rendered and delivered, and nothing is logged as
    an error. *)
Lemma missing_identity_is_not_an_error :
  let groupConfig := with_tokenInfo None rocket_config in
  tokenInfo groupConfig = None
  /\ new_events initial
       (sendBuyNotification default_env true 42 groupConfig sample_tx false initial)
     = [ Log INFO 0 "Sending buy notification";
         SendPhoto 42 (LocalFile "assets/default.png")
           ("<b>NEW BUY</b>" ++ nl ++ "🚀🚀🚀" ++ nl ++ nl
            ++ "🔄 <b>Unknown Token (TOKEN)</b>" ++ nl ++ nl
            ++ "💰 Amount: <b>100 TOKEN</b>" ++ nl
            ++ "🪙 Value: <b>0.01 BNB</b> ($75.00)" ++ nl
            ++ "👤 Buyer: <code>0xdead</code>" ++ nl ++ nl
            ++ "🔗 <a href=" ++ dquote ++ "https://bscscan.com/tx/0xabc" ++ dquote
            ++ ">View Transaction</a>") true;
         Log INFO 0 "Buy notification sent successfully" ].
Proof. split; vm_compute; reflexivity. Qed.

(** C7.  The payload handed to the sink is a function of the purchase and
    the configuration: whatever the state of the bot (registry, timers,
    stored groups, clock) and whatever the fate of the delivery, the same
    purchase and configuration give the same image and the same text. *)
Theorem payload_depends_on_inputs_only (env : ProcessEnv)
    (groupId : Z) (groupConfig : GroupConfig) (tx : Tx) (isSample : bool)
    (w1 w2 : World) (delivered1 delivered2 : bool) :
  payloads (new_events w1
              (sendBuyNotification env delivered1 groupId groupConfig tx isSample w1))
  = payloads (new_events w2
                (sendBuyNotification env delivered2 groupId groupConfig tx isSample w2))
  /\ payloads (new_events w1
                 (call env delivered1 (Notify groupId groupConfig) tx w1))
     = [(groupId, photo_of groupConfig, caption env groupConfig tx false)].
Proof.
  split.
  - now rewrite !sendBuyNotification_payloads.
  - apply sendBuyNotification_payloads.
Qed.

(* ===================================================================== *)
(** * Events of a live feed *)
(* ===================================================================== *)

(** When a firing emits, the tick is exactly the call of
    [sendBuyNotification] on the sample drawn. *)
Lemma tick_emits env tid d w groupId groupConfig :
  emits tid d w groupId groupConfig ->
  tick env tid d w
  = sendBuyNotification env (delivered d) groupId groupConfig (sample d) false w.
Proof.
  unfold tick.
  intros [[Ht Hg] | [[Ht Hg] | (Ht & (groupData & Hd & Ha) & Hg)]];
    rewrite Ht; simpl.
  - now rewrite Hg.
  - now rewrite Hg.
  - now rewrite Hd, Ha, Hg.
Qed.

Lemma emits_same_state tid d w w' groupId groupConfig :
  timers w' = timers w -> groups w' = groups w ->
  emits tid d w groupId groupConfig -> emits tid d w' groupId groupConfig.
Proof.
  unfold emits, getGroup. intros -> ->. auto.
Qed.

(** C4.  When the delivery of a purchase emitted by a live feed fails, the
    failure is logged and goes no further: the registry and the timers are
    as before, so the watch stays registered and the feed keeps running,
    and the next purchase the same feed emits is rendered and its delivery
    attempted. *)
Theorem delivery_failure_is_isolated (env : ProcessEnv) (tid : nat)
    (d1 d2 : Draw) (w : World) (groupId : Z) (groupConfig : GroupConfig) :
  emits tid d1 w groupId groupConfig ->
  delivered d1 = false ->
  let w1 := tick env tid d1 w in
  activeListeners w1 = activeListeners w
  /\ timers w1 = timers w
  /\ groups w1 = groups w
  /\ new_events w w1
     = [ Log INFO (now w) "Sending buy notification";
         SendPhoto groupId (photo_of groupConfig)
           (caption env groupConfig (sample d1) false) false;
         Log ERROR (now w) "Error sending buy notification" ]
  /\ (emits tid d2 w groupId groupConfig ->
        emits tid d2 w1 groupId groupConfig
        /\ payloads (new_events w1 (tick env tid d2 w1))
           = [(groupId, photo_of groupConfig,
               caption env groupConfig (sample d2) false)]).
Proof.
  intros Hemit Hfail w1. subst w1.
  rewrite (tick_emits _ _ _ _ _ _ Hemit), Hfail.
  destruct (sendBuyNotification_frame env false groupId groupConfig
              (sample d1) false w) as (HA & HT & _ & HG & _).
  split; [exact HA|]. split; [exact HT|]. split; [exact HG|].
  split.
  - apply new_events_app. apply sendBuyNotification_trace.
  - intros Hnext.
    assert (Hnext' := emits_same_state _ _ _ _ _ _ HT HG Hnext).
    split; [exact Hnext'|].
    rewrite (tick_emits _ _ _ _ _ _ Hnext').
    apply sendBuyNotification_payloads.
Qed.

Lemma delivery_failure_is_isolated_witness :
  let w := startBlockchainListener default_env true 42 rocket_config initial in
  let d := {| chance := 8 # 10; sample := sample_tx; delivered := false |} in
  emits 0 d w 42 rocket_config
  /\ activeListeners (tick default_env 0 d w) = activeListeners w
  /\ timers (tick default_env 0 d w) = timers w
  /\ emits 0 d (tick default_env 0 d w) 42 rocket_config.
Proof.
  assert (He : emits 0 {| chance := 8 # 10; sample := sample_tx; delivered := false |}
                 (startBlockchainListener default_env true 42 rocket_config initial)
                 42 rocket_config).
  { left. split; reflexivity. }
  destruct (delivery_failure_is_isolated default_env 0
              {| chance := 8 # 10; sample := sample_tx; delivered := false |}
              {| chance := 8 # 10; sample := sample_tx; delivered := false |}
              (startBlockchainListener default_env true 42 rocket_config initial)
              42 rocket_config He eq_refl)
    as (HA & HT & _ & _ & Hnext).
  split; [exact He|]. split; [exact HA|]. split; [exact HT|].
  exact (proj1 (Hnext He)).
Defined.

(* ===================================================================== *)
(** * Stopping *)
(* ===================================================================== *)

Lemma stop_frame (l : Listener) (w : World) :
  activeListeners (stop l w) = activeListeners w
  /\ timers (stop l w) = timers_without (Some l) (timers w)
  /\ nextId (stop l w) = nextId w
  /\ groups (stop l w) = groups w
  /\ now (stop l w) = now w
  /\ trace (stop l w) = (trace w ++ [StopCalled l])%list.
Proof.
  unfold stop, timers_without. destruct l as [r [tid|]]; simpl; auto 10.
Qed.

Lemma timers_without_None (o : option Listener) (m : gmap nat IntervalCallback)
    (tid : nat) :
  m !! tid = None -> timers_without o m !! tid = None.
Proof.
  intros H. destruct o as [[r [t|]]|]; simpl; auto.
  rewrite lookup_delete. now case_decide.
Qed.

(** The registry after one step of the loop. *)
Lemma stop_key_lookup (groupId : Z) (w : World) (key k : string) :
  activeListeners (stop_key groupId w key) !! k
  = if String.prefix (pretty groupId ++ "_") key && bool_decide (k = key)
    then None else activeListeners w !! k.
Proof.
  unfold stop_key.
  destruct (String.prefix (pretty groupId ++ "_") key); simpl; [|reflexivity].
  destruct (activeListeners w !! key) as [l|] eqn:E; simpl.
  - destruct (stop_frame l w) as (-> & _).
    case_bool_decide as Hk.
    + subst k. apply lookup_delete_eq.
    + now apply lookup_delete_ne.
  - case_bool_decide as Hk; [now subst k | reflexivity].
Qed.

Lemma stop_key_skip (groupId : Z) (w : World) (key : string) :
  String.prefix (pretty groupId ++ "_") key = false -> stop_key groupId w key = w.
Proof. unfold stop_key. now intros ->. Qed.

Lemma foldl_stop_key_skip (groupId : Z) (ks : list string) (w : World) :
  (forall k, k ∈ ks -> String.prefix (pretty groupId ++ "_") k = false) ->
  foldl (stop_key groupId) w ks = w.
Proof.
  induction ks as [|key ks IH]; intros H; simpl; [reflexivity|].
  rewrite stop_key_skip by (apply H; left).
  apply IH. intros k Hk. apply H. now right.
Qed.

Lemma foldl_stop_key_None (groupId : Z) (ks : list string) (w : World) (k : string) :
  activeListeners w !! k = None ->
  activeListeners (foldl (stop_key groupId) w ks) !! k = None.
Proof.
  revert w. induction ks as [|key ks IH]; intros w H; simpl; [exact H|].
  apply IH. rewrite stop_key_lookup.
  now destruct (_ && _).
Qed.

Lemma foldl_stop_key_other (groupId : Z) (ks : list string) (w : World) (k : string) :
  String.prefix (pretty groupId ++ "_") k = false ->
  activeListeners (foldl (stop_key groupId) w ks) !! k = activeListeners w !! k.
Proof.
  revert w. induction ks as [|key ks IH]; intros w H; simpl; [reflexivity|].
  rewrite IH by exact H. rewrite stop_key_lookup.
  case_bool_decide as Hk; [subst key; rewrite H|]; simpl.
  - reflexivity.
  - now rewrite andb_false_r.
Qed.

Lemma foldl_stop_key_removed (groupId : Z) (ks : list string) (w : World) (k : string) :
  k ∈ ks -> String.prefix (pretty groupId ++ "_") k = true ->
  activeListeners (foldl (stop_key groupId) w ks) !! k = None.
Proof.
  revert w. induction ks as [|key ks IH]; intros w Hin Hp.
  - inversion Hin.
  - simpl. apply elem_of_cons in Hin as [->|Hin].
    + apply foldl_stop_key_None. rewrite stop_key_lookup, Hp.
      now rewrite bool_decide_eq_true_2.
    + now apply IH.
Qed.

Lemma elem_of_keys (w : World) (k : string) :
  k ∈ keys w <-> is_Some (activeListeners w !! k).
Proof.
  unfold keys. rewrite list_elem_of_fmap. split.
  - intros ([k' l] & -> & H). apply elem_of_map_to_list in H. now exists l.
  - intros [l H]. exists (k, l). split; [reflexivity|].
    now apply elem_of_map_to_list.
Qed.

Lemma NoDup_keys (w : World) : NoDup (keys w).
Proof. apply NoDup_fst_map_to_list. Qed.

(** The steps of the loop never touch the other fields, clear timers only,
    and log no error as long as every key of the snapshot is present. *)
Lemma foldl_stop_key_frame (groupId : Z) (ks : list string) (w : World) :
  let w' := foldl (stop_key groupId) w ks in
  nextId w' = nextId w /\ groups w' = groups w /\ now w' = now w
  /\ forall tid, timers w !! tid = None -> timers w' !! tid = None.
Proof.
  revert w. induction ks as [|key ks IH]; intros w; simpl; [auto|].
  destruct (IH (stop_key groupId w key)) as (H1 & H2 & H3 & H4).
  assert (Hs : nextId (stop_key groupId w key) = nextId w
               /\ groups (stop_key groupId w key) = groups w
               /\ now (stop_key groupId w key) = now w
               /\ forall tid, timers w !! tid = None ->
                              timers (stop_key groupId w key) !! tid = None).
  { unfold stop_key. destruct (String.prefix _ key); [|auto].
    destruct (activeListeners w !! key) as [l|]; simpl; [|auto].
    destruct (stop_frame l w) as (_ & -> & -> & -> & -> & _).
    repeat split; auto. intros tid. apply timers_without_None. }
  destruct Hs as (S1 & S2 & S3 & S4).
  rewrite H1, H2, H3. repeat split; auto.
Qed.

Lemma foldl_stop_key_trace (groupId : Z) (ks : list string) (w : World) :
  NoDup ks ->
  (forall k, k ∈ ks -> is_Some (activeListeners w !! k)) ->
  exists calls : list Event,
    trace (foldl (stop_key groupId) w ks) = (trace w ++ calls)%list
    /\ Forall is_stop_call calls.
Proof.
  revert w. induction ks as [|key ks IH]; intros w Hnd Hin; simpl.
  - exists []. split; [now rewrite app_nil_r | constructor].
  - apply NoDup_cons in Hnd as [Hnotin Hnd].
    destruct (IH (stop_key groupId w key) Hnd) as (calls & Ht & Hc).
    { intros k Hk. rewrite stop_key_lookup.
      rewrite bool_decide_eq_false_2, andb_false_r.
      - apply Hin. now right.
      - intros ->. contradiction. }
    unfold stop_key in Ht |- *.
    destruct (String.prefix _ key); [|now exists calls].
    destruct (Hin key) as [l Hl]; [left|].
    rewrite Hl in Ht |- *. simpl in Ht.
    destruct (stop_frame l w) as (_ & _ & _ & _ & _ & Hst).
    rewrite Hst in Ht.
    exists (StopCalled l :: calls). split.
    + rewrite Ht. now rewrite <- app_assoc.
    + constructor; [exact I | exact Hc].
Qed.

Lemma stopBlockchainListener_unfold (groupId : Z) (w : World) :
  stopBlockchainListener groupId w
  = foldl (stop_key groupId)
      (logger_log "Stopping blockchain listeners for group" w) (keys w).
Proof. reflexivity. Qed.

Lemma stopBlockchainListener_nothing_to_stop (groupId : Z) (w : World) :
  (forall key, String.prefix (pretty groupId ++ "_") key = true ->
               activeListeners w !! key = None) ->
  stopBlockchainListener groupId w
  = logger_log "Stopping blockchain listeners for group" w.
Proof.
  intros H. rewrite stopBlockchainListener_unfold.
  apply foldl_stop_key_skip. intros k Hk.
  apply elem_of_keys in Hk as [l Hl].
  destruct (String.prefix (pretty groupId ++ "_") k) eqn:E; [|reflexivity].
  rewrite (H k E) in Hl. discriminate.
Qed.

Lemma stopBlockchainListener_removes (groupId : Z) (w : World) (key : string) :
  String.prefix (pretty groupId ++ "_") key = true ->
  activeListeners (stopBlockchainListener groupId w) !! key = None.
Proof.
  intros Hp. rewrite stopBlockchainListener_unfold.
  destruct (activeListeners w !! key) as [l|] eqn:E.
  - apply foldl_stop_key_removed; [|exact Hp].
    apply elem_of_keys. now exists l.
  - now apply foldl_stop_key_None.
Qed.

(** C5.  Stopping the listeners of a group always succeeds and is
    idempotent.  After [stopBlockchainListener(groupId)] the registry has
    no key of that group (no key beginning with the group id and an
    underscore, in particular neither the key of a token of the group nor
    its simulator key), the keys of other groups are untouched, and the
    call has logged its line and invoked [stop] on listeners, nothing
    else: no error.  A second call, and a call for a group with nothing
    registered, only logs that line and leaves the state as it was. *)
Theorem stop_group_is_idempotent (groupId : Z) (w : World) :
  let line := "Stopping blockchain listeners for group" in
  let w1 := stopBlockchainListener groupId w in
  let w2 := stopBlockchainListener groupId w1 in
  (forall key, String.prefix (pretty groupId ++ "_") key = true ->
               activeListeners w1 !! key = None)
  /\ (forall groupConfig,
        activeListeners w1 !! listenerId groupId groupConfig = None
        /\ activeListeners w1 !! (listenerId groupId groupConfig ++ "_sim") = None)
  /\ (forall key, String.prefix (pretty groupId ++ "_") key = false ->
                  activeListeners w1 !! key = activeListeners w !! key)
  /\ (exists calls : list Event,
        new_events w w1 = Log INFO (now w) line :: calls
        /\ Forall is_stop_call calls)
  /\ w2 = logger_log line w1
  /\ ((forall key, String.prefix (pretty groupId ++ "_") key = true ->
                   activeListeners w !! key = None) ->
      w1 = logger_log line w).
Proof.
  intros line w1 w2. subst line.
  assert (Hgone : forall key,
             String.prefix (pretty groupId ++ "_") key = true ->
             activeListeners w1 !! key = None).
  { intros key. apply stopBlockchainListener_removes. }
  split; [exact Hgone|].
  split.
  { intros groupConfig. unfold listenerId. split; apply Hgone.
    - rewrite <- append_assoc. apply prefix_append.
    - rewrite <- append_assoc, append_assoc. apply prefix_append. }
  split.
  { intros key Hp. subst w1. rewrite stopBlockchainListener_unfold.
    now rewrite foldl_stop_key_other. }
  split.
  { subst w1. rewrite stopBlockchainListener_unfold.
    destruct (foldl_stop_key_trace groupId (keys w)
                (logger_log "Stopping blockchain listeners for group" w))
      as (calls & Ht & Hc).
    - apply NoDup_keys.
    - intros k Hk. now apply elem_of_keys in Hk.
    - exists calls. split; [|exact Hc].
      apply new_events_app. rewrite Ht. simpl.
      now rewrite <- app_assoc. }
  split.
  { subst w2. now apply stopBlockchainListener_nothing_to_stop. }
  intros Hnone. subst w1. now apply stopBlockchainListener_nothing_to_stop.
Qed.

Lemma stop_group_is_idempotent_witness :
  stopBlockchainListener 42
    (stopBlockchainListener 42
       (startBlockchainListener default_env true 42 rocket_config initial))
  = logger_log "Stopping blockchain listeners for group"
      (stopBlockchainListener 42
         (startBlockchainListener default_env true 42 rocket_config initial))
  /\ stopBlockchainListener 42 initial
     = logger_log "Stopping blockchain listeners for group" initial.
Proof.
  split.
  - apply (stop_group_is_idempotent 42
             (startBlockchainListener default_env true 42 rocket_config initial)).
  - apply (stop_group_is_idempotent 42 initial).
    intros key _. apply lookup_empty.
Defined.

(* ===================================================================== *)
(** * Starting *)
(* ===================================================================== *)

(** The world after a start whose feed opens. *)
Lemma start_opens (env : ProcessEnv) (groupId : Z) (groupConfig : GroupConfig)
    (w : World) :
  let w' := startBlockchainListener env true groupId groupConfig w in
  let id := listenerId groupId groupConfig in
  let l := opened_listener env groupConfig w in
  let cleared := timers_without (activeListeners w !! id) (timers w) in
  activeListeners w' = <[id := l]> (activeListeners w)
  /\ timers w'
     = match intervalId l with
       | Some tid => <[tid := poll_of groupId groupConfig]> cleared
       | None => cleared
       end
  /\ nextId w' = S (ref l)
  /\ groups w' = groups w
  /\ now w' = now w
  /\ trace w'
     = (trace w
        ++ Log INFO (now w) "Starting blockchain listener"
        :: match activeListeners w !! id with
           | Some existing => [StopCalled existing]
           | None => []
           end
        ++ [ Log INFO (now w)
               (if is_BNB groupConfig
                then "Starting BNB Chain DEX monitoring"
                else "Starting Solana DEX monitoring");
             Log INFO (now w) "Blockchain monitoring started successfully" ])%list.
Proof.
  unfold startBlockchainListener, opened_listener, poll_of, timers_without,
    monitorBnbDexSwaps, monitorSolanaDexSwaps.
  simpl.
  destruct (activeListeners w !! listenerId groupId groupConfig)
    as [[r [tid|]]|] eqn:E;
    destruct (is_BNB groupConfig); destruct (production env); simpl;
    rewrite ?insert_delete_eq, <- ?app_assoc; simpl;
    repeat split; reflexivity.
Qed.

Lemma listenerId_inj (groupId : Z) (c1 c2 : GroupConfig) :
  listenerId groupId c1 = listenerId groupId c2 ->
  tokenAddress c1 = tokenAddress c2.
Proof.
  unfold listenerId. intros H.
  apply String.app_inj in H. now apply String.app_inj in H.
Qed.

(** C1.  Starting a watch under a key that already has a listener first
    calls [stop] on that listener and removes it, then registers the new
    one.  After a start with configuration A and a start with
    configuration B for the same group and token, both feeds opening, the
    registry holds under that key the listener opened for B, whose timer,
    when it has one, fires the callback bound to B; the listener opened
    for A received a [stop] call and its timer is gone. *)
Theorem start_replaces_existing_listener (env : ProcessEnv) (groupId : Z)
    (cfgA cfgB : GroupConfig) (w : World) :
  tokenAddress cfgA = tokenAddress cfgB ->
  let key := listenerId groupId cfgA in
  let wA := startBlockchainListener env true groupId cfgA w in
  let wB := startBlockchainListener env true groupId cfgB wA in
  let lA := opened_listener env cfgA w in
  let lB := opened_listener env cfgB wA in
  listenerId groupId cfgB = key
  /\ activeListeners wA !! key = Some lA
  /\ activeListeners wB !! key = Some lB
  /\ ref lA <> ref lB
  /\ (exists before after : list Event,
        new_events wA wB
        = (before ++ StopCalled lA
           :: after ++ [Log INFO (now w) "Blockchain monitoring started successfully"])%list)
  /\ (forall tid, intervalId lA = Some tid ->
        timers wA !! tid = Some (poll_of groupId cfgA)
        /\ timers wB !! tid = None)
  /\ (forall tid, intervalId lB = Some tid ->
        timers wB !! tid = Some (poll_of groupId cfgB))
  /\ (forall key', key' <> key ->
        activeListeners wB !! key' = activeListeners w !! key').
Proof.
  intros Haddr key wA wB lA lB.
  assert (Hkey : listenerId groupId cfgB = key).
  { unfold key, listenerId. now rewrite Haddr. }
  destruct (start_opens env groupId cfgA w)
    as (HregA & HtimA & HnextA & _ & HnowA & _).
  destruct (start_opens env groupId cfgB wA)
    as (HregB & HtimB & _ & _ & _ & HtrB).
  fold wA in HregA, HtimA, HnextA, HnowA, HregB, HtimB, HtrB.
  fold wB in HregB, HtimB, HtrB. fold lA in HregA, HtimA, HnextA.
  fold lB in HregB, HtimB.
  rewrite Hkey in HregB, HtimB, HtrB. fold key in HregA, HtimA.
  assert (HlookA : activeListeners wA !! key = Some lA).
  { rewrite HregA. apply lookup_insert_eq. }
  rewrite HlookA in HtimB, HtrB.
  assert (Hfresh : forall tid, intervalId lA = Some tid -> tid < nextId wA).
  { intros tid Hl. rewrite HnextA. revert Hl. unfold lA, opened_listener.
    destruct (_ && _); simpl; [discriminate|]. intros [= <-]. lia. }
  assert (HidB : forall tid, intervalId lB = Some tid -> tid = nextId wA).
  { intros tid. unfold lB, opened_listener.
    destruct (_ && _); simpl; [discriminate|]. now intros [= <-]. }
  split; [exact Hkey|]. split; [exact HlookA|].
  split; [rewrite HregB; apply lookup_insert_eq|].
  split.
  { unfold lB. unfold opened_listener at 1. rewrite HnextA.
    destruct (_ && _); simpl; lia. }
  split.
  { exists [Log INFO (now wA) "Starting blockchain listener"].
    exists [Log INFO (now wA)
              (if is_BNB cfgB then "Starting BNB Chain DEX monitoring"
               else "Starting Solana DEX monitoring")].
    rewrite <- HnowA. apply new_events_app. exact HtrB. }
  split.
  { intros tid Hl. split.
    - rewrite HtimA, Hl. apply lookup_insert_eq.
    - rewrite HtimB. unfold timers_without.
      destruct lA as [rA iA]. simpl in Hl. subst iA.
      assert (Hne : forall t, intervalId lB = Some t -> t <> tid).
      { intros t Ht. apply HidB in Ht. subst t.
        specialize (Hfresh tid eq_refl). lia. }
      destruct (intervalId lB) as [t|].
      + rewrite lookup_insert_ne by (now apply Hne). apply lookup_delete_eq.
      + apply lookup_delete_eq. }
  split.
  { intros tid Hl. rewrite HtimB, Hl. apply lookup_insert_eq. }
  intros key' Hne. rewrite HregB, lookup_insert_ne by congruence.
  rewrite HregA. now rewrite lookup_insert_ne by congruence.
Qed.

Lemma start_replaces_existing_listener_witness :
  let cfgB := with_tokenInfo None rocket_config in
  let wB := startBlockchainListener default_env true 42 cfgB
              (startBlockchainListener default_env true 42 rocket_config initial) in
  activeListeners wB !! "42_TOKEN1" = Some {| ref := 3; intervalId := Some 2 |}
  /\ timers wB !! 2 = Some (BnbPoll (Notify 42 cfgB))
  /\ timers wB !! 0 = None.
Proof.
  destruct (start_replaces_existing_listener default_env 42 rocket_config
              (with_tokenInfo None rocket_config) initial eq_refl)
    as (_ & _ & HB & _ & _ & HA & HtB & _).
  split; [exact HB|].
  split; [exact (HtB 2 eq_refl) | exact (proj2 (HA 0 eq_refl))].
Defined.

(** The world after a start whose feed does not open: the existing
    listener has been stopped and removed; outside production the
    simulator is registered under the key with [_sim] appended. *)
Lemma start_fails (env : ProcessEnv) (groupId : Z) (groupConfig : GroupConfig)
    (w : World) :
  let w' := startBlockchainListener env false groupId groupConfig w in
  let id := listenerId groupId groupConfig in
  let cleared := timers_without (activeListeners w !! id) (timers w) in
  if production env then
    activeListeners w' = delete id (activeListeners w)
    /\ timers w' = cleared
    /\ nextId w' = nextId w
  else
    activeListeners w'
    = <[id ++ "_sim" := {| ref := S (nextId w); intervalId := Some (nextId w) |}]>
        (delete id (activeListeners w))
    /\ timers w' = <[nextId w := SimPoll groupId groupConfig]> cleared
    /\ nextId w' = S (S (nextId w)).
Proof.
  unfold startBlockchainListener, timers_without,
    monitorBnbDexSwaps, monitorSolanaDexSwaps, simulateBuyTransactions.
  simpl.
  destruct (activeListeners w !! listenerId groupId groupConfig)
    as [[r [tid|]]|] eqn:E;
    destruct (is_BNB groupConfig); destruct (production env); simpl;
    rewrite ?(delete_id _ _ E); repeat split; reflexivity.
Qed.

Lemma timers_without_Some (o : option Listener) (m : gmap nat IntervalCallback)
    (tid : nat) (cb : IntervalCallback) :
  timers_without o m !! tid = Some cb -> m !! tid = Some cb.
Proof.
  destruct o as [[r [t|]]|]; simpl; auto.
  rewrite lookup_delete. now case_decide.
Qed.

(** [well_formed] is an invariant of the bot. *)
Lemma well_formed_initial : well_formed initial.
Proof. split; intros *; simpl; rewrite lookup_empty; discriminate. Qed.

Lemma well_formed_same (w w' : World) :
  activeListeners w' = activeListeners w -> timers w' = timers w ->
  nextId w' = nextId w -> well_formed w -> well_formed w'.
Proof. unfold well_formed. now intros -> -> ->. Qed.

Lemma well_formed_start (env : ProcessEnv) (opens : bool) (groupId : Z)
    (groupConfig : GroupConfig) (w : World) :
  well_formed w ->
  well_formed (startBlockchainListener env opens groupId groupConfig w).
Proof.
  intros [Ht Hl]. destruct opens.
  - destruct (start_opens env groupId groupConfig w)
      as (Hreg & Htim & Hnext & _).
    assert (Hge : nextId w <= ref (opened_listener env groupConfig w)).
    { unfold opened_listener. destruct (_ && _); simpl; lia. }
    assert (Hint : forall tid,
               intervalId (opened_listener env groupConfig w) = Some tid ->
               tid = nextId w
               /\ ref (opened_listener env groupConfig w) = S (nextId w)).
    { intros tid. unfold opened_listener.
      destruct (_ && _); simpl; [discriminate|]. now intros [= <-]. }
    split.
    + intros tid cb. rewrite Htim, Hnext.
      destruct (intervalId _) as [t|] eqn:Ei.
      * destruct (Hint t eq_refl) as [-> ->].
        rewrite lookup_insert. case_decide as Hd; [intros _; lia|].
        intros H. apply timers_without_Some, Ht in H. lia.
      * intros H. apply timers_without_Some, Ht in H. lia.
    + intros key l. rewrite Hreg, Hnext, lookup_insert.
      case_decide as Hd.
      * intros [= <-]. split; [lia|].
        intros tid Hi. destruct (Hint tid Hi) as [-> ->]. lia.
      * intros H. destruct (Hl key l H) as [Hr Hi]. split; [lia|].
        intros tid Htid. specialize (Hi tid Htid). lia.
  - pose proof (start_fails env groupId groupConfig w) as Hf. simpl in Hf.
    destruct (production env).
    + destruct Hf as (Hreg & Htim & Hnext). split.
      * intros tid cb. rewrite Htim, Hnext.
        intros H. now apply timers_without_Some, Ht in H.
      * intros key l. rewrite Hreg, Hnext, lookup_delete.
        case_decide; [discriminate|]. apply Hl.
    + destruct Hf as (Hreg & Htim & Hnext). split.
      * intros tid cb. rewrite Htim, Hnext, lookup_insert.
        case_decide as Hd; [intros _; lia|].
        intros H. apply timers_without_Some, Ht in H. lia.
      * intros key l. rewrite Hreg, Hnext, lookup_insert.
        case_decide as Hd.
        -- intros [= <-]. simpl. split; [lia|]. intros tid [= <-]. lia.
        -- rewrite lookup_delete. case_decide as Hk; [discriminate|].
           intros H. destruct (Hl key l H) as [Hr Hi]. split; [lia|].
           intros tid Htid. specialize (Hi tid Htid). lia.
Qed.

Lemma foldl_stop_key_Some (groupId : Z) (ks : list string) (w : World)
    (k : string) (l : Listener) :
  activeListeners (foldl (stop_key groupId) w ks) !! k = Some l ->
  activeListeners w !! k = Some l.
Proof.
  revert w. induction ks as [|key ks IH]; intros w; simpl; [auto|].
  intros H. apply IH in H. rewrite stop_key_lookup in H.
  now destruct (_ && _).
Qed.

Lemma well_formed_stop (groupId : Z) (w : World) :
  well_formed w -> well_formed (stopBlockchainListener groupId w).
Proof.
  intros [Ht Hl]. rewrite stopBlockchainListener_unfold.
  destruct (foldl_stop_key_frame groupId (keys w)
              (logger_log "Stopping blockchain listeners for group" w))
    as (Hnext & _ & _ & Hnone).
  split.
  - intros tid cb H. rewrite Hnext. simpl.
    destruct (timers w !! tid) as [cb'|] eqn:E; [now apply (Ht tid cb')|].
    rewrite (Hnone tid E) in H. discriminate.
  - intros key l H. rewrite Hnext. simpl.
    apply foldl_stop_key_Some in H. now apply (Hl key l).
Qed.

Lemma tick_frame (env : ProcessEnv) (tid : nat) (d : Draw) (w : World) :
  let w' := tick env tid d w in
  activeListeners w' = activeListeners w
  /\ nextId w' = nextId w
  /\ groups w' = groups w
  /\ (timers w' = timers w \/ timers w' = delete tid (timers w)).
Proof.
  unfold tick, call.
  destruct (timers w !! tid) as [[[g c]|[g c]|g c]|]; simpl; auto.
  - destruct (gt _ _); [|auto].
    destruct (sendBuyNotification_frame env (delivered d) g c (sample d) false w)
      as (-> & -> & -> & -> & _). auto.
  - destruct (gt _ _); [|auto].
    destruct (sendBuyNotification_frame env (delivered d) g c (sample d) false w)
      as (-> & -> & -> & -> & _). auto.
  - destruct (negb _); simpl; [auto|].
    destruct (gt _ _); [auto|].
    destruct (sendBuyNotification_frame env (delivered d) g c (sample d) false w)
      as (-> & -> & -> & -> & _). auto.
Qed.

Lemma well_formed_tick (env : ProcessEnv) (tid : nat) (d : Draw) (w : World) :
  well_formed w -> well_formed (tick env tid d w).
Proof.
  intros [Ht Hl].
  destruct (tick_frame env tid d w) as (Hreg & Hnext & _ & Htim).
  split.
  - intros t cb. rewrite Hnext. destruct Htim as [-> | ->]; [apply Ht|].
    rewrite lookup_delete. case_decide; [discriminate | apply Ht].
  - intros key l. rewrite Hreg, Hnext. apply Hl.
Qed.

Lemma well_formed_finalizeSetup (env : ProcessEnv) (replied opens : bool)
    (chatId : Z) (setupData : SetupData) (w : World) :
  well_formed w -> well_formed (finalizeSetup env replied opens chatId setupData w).
Proof.
  intros H. unfold finalizeSetup. destruct replied.
  - eapply well_formed_same; [reflexivity | reflexivity | reflexivity |].
    apply well_formed_start.
    eapply well_formed_same; [reflexivity | reflexivity | reflexivity | exact H].
  - exact H.
Qed.

Lemma well_formed_step (env : ProcessEnv) (w : World) (op : Op) :
  well_formed w -> well_formed (step env w op).
Proof.
  destruct op; simpl.
  - apply well_formed_finalizeSetup.
  - apply well_formed_start.
  - apply well_formed_stop.
  - apply well_formed_tick.
  - auto.
Qed.

Lemma well_formed_run (env : ProcessEnv) (ops : list Op) (w : World) :
  well_formed w -> well_formed (run env ops w).
Proof.
  revert w. induction ops as [|op ops IH]; intros w H; simpl; [exact H|].
  apply IH. now apply well_formed_step.
Qed.

(* ===================================================================== *)
(** * Completing the setup *)
(* ===================================================================== *)

(** The world after a setup whose confirmation is sent and whose feed
    opens. *)
Lemma finalizeSetup_opens (env : ProcessEnv) (chatId : Z) (setupData : SetupData)
    (w : World) :
  let groupConfig := groupConfig_of setupData (now w) in
  let w' := finalizeSetup env true true chatId setupData w in
  let id := listenerId chatId groupConfig in
  let l := opened_listener env groupConfig w in
  let cleared := timers_without (activeListeners w !! id) (timers w) in
  activeListeners w' = <[id := l]> (activeListeners w)
  /\ timers w'
     = match intervalId l with
       | Some tid => <[tid := poll_of chatId groupConfig]> cleared
       | None => cleared
       end
  /\ nextId w' = S (ref l)
  /\ groups w' = <[chatId := groupConfig]> (groups w)
  /\ now w' = now w
  /\ exists before after : list Event,
       Forall (fun e => ~ is_stop_call e) before
       /\ Forall (fun e => ~ is_stop_call e) after
       /\ new_events w w'
          = (before
             ++ match activeListeners w !! id with
                | Some existing => [StopCalled existing]
                | None => []
                end
             ++ after)%list.
Proof.
  intros groupConfig w' id l cleared.
  unfold finalizeSetup in w'. fold groupConfig in w'.
  set (mid := emit _ (saveGroup chatId groupConfig w)) in w'.
  destruct (start_opens env chatId groupConfig mid)
    as (Hreg & Htim & Hnext & Hgr & Hnow & Htr).
  split; [exact Hreg|]. split; [exact Htim|]. split; [exact Hnext|].
  split; [subst w'; simpl; rewrite Hgr; reflexivity|]. split; [exact Hnow|].
  exists [ Log INFO (now w) ("Group " ++ pretty chatId ++ " settings updated")%string;
           ReplyWithPhoto chatId
             (if String.eqb (setup_imageFileId setupData) "default"
              then LocalFile "assets/default.png"
              else FileId (setup_imageFileId setupData))
             (setup_complete_text setupData) true;
           Log INFO (now w) "Starting blockchain listener" ].
  exists [ Log INFO (now w)
             (if is_BNB groupConfig
              then "Starting BNB Chain DEX monitoring"
              else "Starting Solana DEX monitoring");
           Log INFO (now w) "Blockchain monitoring started successfully";
           Log INFO (now w) "Setup completed" ].
  split; [repeat constructor; simpl; tauto|].
  split; [repeat constructor; simpl; tauto|].
  apply new_events_app. subst w'.
  unfold logger_log at 1, emit at 1. cbn [trace].
  rewrite Htr, Hnow. subst mid. simpl.
  rewrite <- !app_assoc. simpl. rewrite <- ?app_assoc. reflexivity.
Qed.

Lemma tick_poll_of (env : ProcessEnv) (tid : nat) (d : Draw) (w : World)
    (groupId : Z) (groupConfig : GroupConfig) :
  timers w !! tid = Some (poll_of groupId groupConfig) ->
  gt (chance d) (threshold groupConfig) = true ->
  payloads (new_events w (tick env tid d w))
  = [(groupId, photo_of groupConfig, caption env groupConfig (sample d) false)].
Proof.
  intros Ht Hg.
  assert (He : emits tid d w groupId groupConfig).
  { unfold emits. unfold poll_of in Ht. unfold threshold in Hg.
    destruct (is_BNB groupConfig); auto. }
  rewrite (tick_emits _ _ _ _ _ _ He).
  apply sendBuyNotification_payloads.
Qed.

(** C9.  When a group completes the setup for a token A and later for
    another token B, the start of the listener for B does not stop the
    listener for A: the two keys differ, both listeners are registered
    afterwards, no [stop] was called on the listener of A, the timers of
    both feeds are live, and a purchase emitted by either feed is
    delivered to the group. *)
Theorem second_token_keeps_first_listener (env : ProcessEnv) (chatId : Z)
    (setupA setupB : SetupData) (w : World) :
  well_formed w ->
  setup_tokenAddress setupA <> setup_tokenAddress setupB ->
  let cfgA := groupConfig_of setupA (now w) in
  let cfgB := groupConfig_of setupB (now w) in
  let w1 := finalizeSetup env true true chatId setupA w in
  let w2 := finalizeSetup env true true chatId setupB w1 in
  let lA := opened_listener env cfgA w in
  let lB := opened_listener env cfgB w1 in
  listenerId chatId cfgA <> listenerId chatId cfgB
  /\ activeListeners w1 !! listenerId chatId cfgA = Some lA
  /\ activeListeners w2 !! listenerId chatId cfgA = Some lA
  /\ activeListeners w2 !! listenerId chatId cfgB = Some lB
  /\ ref lA <> ref lB
  /\ ~ In (StopCalled lA) (new_events w1 w2)
  /\ (forall tid d, intervalId lA = Some tid ->
        timers w2 !! tid = Some (poll_of chatId cfgA)
        /\ (gt (chance d) (threshold cfgA) = true ->
            payloads (new_events w2 (tick env tid d w2))
            = [(chatId, photo_of cfgA, caption env cfgA (sample d) false)]))
  /\ (forall tid d, intervalId lB = Some tid ->
        timers w2 !! tid = Some (poll_of chatId cfgB)
        /\ (gt (chance d) (threshold cfgB) = true ->
            payloads (new_events w2 (tick env tid d w2))
            = [(chatId, photo_of cfgB, caption env cfgB (sample d) false)])).
Proof.
  intros [Hwt Hwl] Hne cfgA cfgB w1 w2 lA lB.
  destruct (finalizeSetup_opens env chatId setupA w)
    as (Hreg1 & Htim1 & Hnext1 & _ & Hnow1 & _).
  destruct (finalizeSetup_opens env chatId setupB w1)
    as (Hreg2 & Htim2 & _ & _ & _ & before & after & Hb & Ha & Hev).
  fold w1 in Hreg1, Htim1, Hnext1, Hnow1, Hreg2, Htim2, Hev.
  fold w2 in Hreg2, Htim2, Hev.
  rewrite Hnow1 in Hreg2, Htim2, Hev.
  fold cfgA in Hreg1, Htim1, Hnext1. fold cfgB in Hreg2, Htim2, Hev.
  fold lA in Hreg1, Htim1, Hnext1. fold lB in Hreg2, Htim2.
  assert (Hkeys : listenerId chatId cfgA <> listenerId chatId cfgB).
  { intros H. apply listenerId_inj in H. now apply Hne. }
  assert (HlookA : activeListeners w1 !! listenerId chatId cfgA = Some lA).
  { rewrite Hreg1. apply lookup_insert_eq. }
  assert (Hold : activeListeners w1 !! listenerId chatId cfgB
                 = activeListeners w !! listenerId chatId cfgB).
  { rewrite Hreg1. now apply lookup_insert_ne. }
  rewrite Hold in Htim2, Hev.
  assert (HrefA : nextId w <= ref lA).
  { unfold lA, opened_listener. destruct (_ && _); simpl; lia. }
  assert (HidA : forall tid, intervalId lA = Some tid -> tid = nextId w).
  { intros tid. unfold lA, opened_listener.
    destruct (_ && _); simpl; [discriminate|]. now intros [= <-]. }
  assert (HidB : forall tid, intervalId lB = Some tid -> tid = nextId w1).
  { intros tid. unfold lB, opened_listener.
    destruct (_ && _); simpl; [discriminate|]. now intros [= <-]. }
  assert (HliveA : forall tid, intervalId lA = Some tid ->
                     timers w2 !! tid = Some (poll_of chatId cfgA)).
  { intros tid Hi. pose proof (HidA tid Hi) as ->.
    assert (Hin1 : timers w1 !! nextId w = Some (poll_of chatId cfgA)).
    { rewrite Htim1, Hi. apply lookup_insert_eq. }
    assert (Hkeep : timers_without (activeListeners w !! listenerId chatId cfgB)
                      (timers w1) !! nextId w = Some (poll_of chatId cfgA)).
    { unfold timers_without.
      destruct (activeListeners w !! listenerId chatId cfgB)
        as [[r [t|]]|] eqn:E; try exact Hin1.
      rewrite lookup_delete_ne; [exact Hin1|].
      destruct (Hwl _ _ E) as [_ Ht]. specialize (Ht t eq_refl). lia. }
    rewrite Htim2.
    destruct (intervalId lB) as [t|] eqn:EB; [|exact Hkeep].
    rewrite lookup_insert_ne; [exact Hkeep|].
    rewrite (HidB t eq_refl), Hnext1. lia. }
  assert (HliveB : forall tid, intervalId lB = Some tid ->
                     timers w2 !! tid = Some (poll_of chatId cfgB)).
  { intros tid Hi. rewrite Htim2, Hi. apply lookup_insert_eq. }
  split; [exact Hkeys|]. split; [exact HlookA|].
  split; [rewrite Hreg2, lookup_insert_ne by congruence; exact HlookA|].
  split; [rewrite Hreg2; apply lookup_insert_eq|].
  split.
  { unfold lB. unfold opened_listener at 1. rewrite Hnext1.
    destruct (_ && _); simpl; lia. }
  split.
  { rewrite Hev. intros Hin.
    apply in_app_or in Hin as [Hin | Hin].
    - rewrite Forall_forall in Hb. apply list_elem_of_In in Hin.
      now apply (Hb _ Hin).
    - apply in_app_or in Hin as [Hin | Hin].
      + destruct (activeListeners w !! listenerId chatId cfgB) as [ex|] eqn:E;
          [|contradiction].
        destruct Hin as [[= ->]|[]].
        destruct (Hwl _ _ E) as [Hr _]. lia.
      + rewrite Forall_forall in Ha. apply list_elem_of_In in Hin.
        now apply (Ha _ Hin). }
  split.
  - intros tid d Hi. split; [now apply HliveA|].
    apply tick_poll_of. now apply HliveA.
  - intros tid d Hi. split; [now apply HliveB|].
    apply tick_poll_of. now apply HliveB.
Qed.

Lemma second_token_keeps_first_listener_witness :
  let w2 := finalizeSetup default_env true true 42 (sample_setup "TOKENB")
              (finalizeSetup default_env true true 42 (sample_setup "TOKENA") initial) in
  activeListeners w2 !! "42_TOKENA" = Some {| ref := 1; intervalId := Some 0 |}
  /\ activeListeners w2 !! "42_TOKENB" = Some {| ref := 3; intervalId := Some 2 |}
  /\ timers w2 !! 0
     = Some (BnbPoll (Notify 42 (groupConfig_of (sample_setup "TOKENA") 0))).
Proof.
  destruct (second_token_keeps_first_listener default_env 42
              (sample_setup "TOKENA") (sample_setup "TOKENB") initial
              well_formed_initial)
    as (_ & _ & HA & HB & _ & _ & HtA & _).
  - discriminate.
  - split; [exact HA|]. split; [exact HB|].
    exact (proj1 (HtA 0 {| chance := 0; sample := sample_tx; delivered := true |}
                    eq_refl)).
Defined.

(* ===================================================================== *)
(** * Silence after stop *)
(* ===================================================================== *)

(** A timer that has been cleared stays cleared: new timers get new
    identifiers. *)
Lemma start_keeps_cleared (env : ProcessEnv) (opens : bool) (groupId : Z)
    (groupConfig : GroupConfig) (w : World) (tid : nat) :
  timers w !! tid = None -> tid < nextId w ->
  let w' := startBlockchainListener env opens groupId groupConfig w in
  timers w' !! tid = None /\ tid < nextId w'.
Proof.
  intros Hn Hlt. simpl.
  assert (Hc : timers_without
                 (activeListeners w !! listenerId groupId groupConfig)
                 (timers w) !! tid = None)
    by now apply timers_without_None.
  destruct opens.
  - destruct (start_opens env groupId groupConfig w) as (_ & -> & -> & _).
    unfold opened_listener. destruct (_ && _); simpl.
    + split; [exact Hc | lia].
    + split; [|lia]. rewrite lookup_insert_ne by lia. exact Hc.
  - pose proof (start_fails env groupId groupConfig w) as Hf. simpl in Hf.
    destruct (production env).
    + destruct Hf as (_ & -> & ->). auto.
    + destruct Hf as (_ & -> & ->). split; [|lia].
      rewrite lookup_insert_ne by lia. exact Hc.
Qed.

Lemma step_keeps_cleared (env : ProcessEnv) (op : Op) (w : World) (tid : nat) :
  timers w !! tid = None -> tid < nextId w ->
  timers (step env w op) !! tid = None /\ tid < nextId (step env w op).
Proof.
  intros Hn Hlt. destruct op as [replied opens g sd|opens g c|g|t d|t]; simpl.
  - unfold finalizeSetup. destruct replied; [|auto].
    apply (start_keeps_cleared env opens g _
             (emit _ (saveGroup g (groupConfig_of sd (now w)) w))); assumption.
  - now apply start_keeps_cleared.
  - rewrite stopBlockchainListener_unfold.
    destruct (foldl_stop_key_frame g (keys w)
                (logger_log "Stopping blockchain listeners for group" w))
      as (-> & _ & _ & H).
    split; [now apply H | exact Hlt].
  - destruct (tick_frame env t d w) as (_ & -> & _ & [-> | ->]).
    + auto.
    + split; [|exact Hlt]. rewrite lookup_delete. now case_decide.
  - auto.
Qed.

Lemma cleared_timer_is_silent (env : ProcessEnv) (tid : nat) (ops : list Op)
    (w : World) :
  timers w !! tid = None -> tid < nextId w ->
  deliveries_of env tid ops w = [].
Proof.
  revert w. induction ops as [|op ops IH]; intros w Hn Hlt; [reflexivity|].
  simpl. destruct (step_keeps_cleared env op w tid Hn Hlt) as [Hn' Hlt'].
  rewrite (IH _ Hn' Hlt'), app_nil_r.
  destruct op; try reflexivity.
  destruct (Nat.eqb tid0 tid) eqn:E; [|reflexivity].
  apply Nat.eqb_eq in E. subst tid0.
  simpl. unfold tick. rewrite Hn. now rewrite new_events_refl.
Qed.

(** The feeds of the bot keep the contract: once [stop] has been called on
    a registered listener, no purchase is delivered on behalf of its timer,
    whatever happens next. *)
Lemma stopped_listener_is_silent (env : ProcessEnv) (key : string) (l : Listener)
    (tid : nat) (ops : list Op) (w : World) :
  well_formed w ->
  activeListeners w !! key = Some l ->
  intervalId l = Some tid ->
  deliveries_of env tid ops (stop l w) = [].
Proof.
  intros [_ Hl] Hk Hi.
  destruct (stop_frame l w) as (_ & Ht & Hn & _).
  apply cleared_timer_is_silent.
  - rewrite Ht. destruct l as [r i]. simpl in Hi. subst i. simpl.
    apply lookup_delete_eq.
  - rewrite Hn. destruct (Hl key l Hk) as [_ H]. now apply H.
Qed.

Lemma foldl_stop_key_clears (groupId : Z) (ks : list string) (w : World)
    (key : string) (l : Listener) (tid : nat) :
  key ∈ ks ->
  String.prefix (pretty groupId ++ "_") key = true ->
  activeListeners w !! key = Some l ->
  intervalId l = Some tid ->
  timers (foldl (stop_key groupId) w ks) !! tid = None.
Proof.
  revert w. induction ks as [|k ks IH]; intros w Hin Hp Hl Hi.
  - inversion Hin.
  - simpl. destruct (decide (k = key)) as [->|Hne].
    + destruct (foldl_stop_key_frame groupId ks (stop_key groupId w key))
        as (_ & _ & _ & H).
      apply H. unfold stop_key. rewrite Hp, Hl. simpl.
      destruct (stop_frame l w) as (_ & -> & _).
      destruct l as [r i]. simpl in Hi. subst i. simpl.
      apply lookup_delete_eq.
    + apply elem_of_cons in Hin as [->|Hin]; [contradiction|].
      apply IH; auto.
      rewrite stop_key_lookup, bool_decide_eq_false_2 by congruence.
      now rewrite andb_false_r.
Qed.

(** X2.  After [stopBlockchainListener(groupId)] no purchase is delivered
    on behalf of a listener that was registered for the group, whatever
    happens next. *)
Lemma stopped_group_is_silent (env : ProcessEnv) (groupId : Z) (key : string)
    (l : Listener) (tid : nat) (ops : list Op) (w : World) :
  well_formed w ->
  String.prefix (pretty groupId ++ "_") key = true ->
  activeListeners w !! key = Some l ->
  intervalId l = Some tid ->
  deliveries_of env tid ops (stopBlockchainListener groupId w) = [].
Proof.
  intros Hwf Hp Hk Hi.
  assert (Hlt : tid < nextId w).
  { destruct Hwf as [_ Hl]. destruct (Hl key l Hk) as [_ H]. now apply H. }
  apply cleared_timer_is_silent.
  - rewrite stopBlockchainListener_unfold.
    apply (foldl_stop_key_clears groupId (keys w) _ key l); auto.
    apply elem_of_keys. now exists l.
  - rewrite stopBlockchainListener_unfold.
    destruct (foldl_stop_key_frame groupId (keys w)
                (logger_log "Stopping blockchain listeners for group" w))
      as (-> & _). exact Hlt.
Qed.

(** C6.  The BNB monitor of [blockchain-monitor.js] breaks the contract:
    a poll that is waiting for the block number when [stop] is called
    resumes afterwards and hands a purchase to the callback.  The run
    below is one firing of the interval, the call of [stop], and the
    block number arriving. *)
Theorem bnb_monitor_emits_after_stop :
  let inputs :=
    [ BlockchainMonitor.IntervalFires (0 # 1) sample_tx;
      BlockchainMonitor.Stop;
      BlockchainMonitor.BlockNumberSettles (Some 101%Z) (9 # 10) sample_tx ] in
  exists f : BlockchainMonitor.Feed,
    BlockchainMonitor.bnb_run 100 inputs = Some f
    /\ BlockchainMonitor.observed f
       = [ BlockchainMonitor.Logged INFO "Starting BNB Chain DEX monitoring";
           BlockchainMonitor.Logged INFO "Stopping BNB Chain monitoring";
           BlockchainMonitor.StopReturned;
           BlockchainMonitor.Logged INFO "Processing new blocks: 101 to 101";
           BlockchainMonitor.Emitted sample_tx ]
    /\ BlockchainMonitor.quiet_after_stop false (BlockchainMonitor.observed f)
       = false.
Proof.
  eexists. split; [reflexivity|]. split; reflexivity.
Qed.

(** The defect is confined to polls in flight.  The Solana monitor of the
    same file, whose callback runs within one turn, is silent after
    [stop]; so is the BNB monitor when no poll is pending at that time. *)
Lemma quiet_after_stop_snoc (s : bool) (l : list BlockchainMonitor.Obs)
    (o : BlockchainMonitor.Obs) :
  BlockchainMonitor.quiet_after_stop s (l ++ [o])
  = BlockchainMonitor.quiet_after_stop s l
    && match o with
       | BlockchainMonitor.Emitted _ =>
           negb (s || BlockchainMonitor.has_stopped l)
       | _ => true
       end.
Proof.
  revert s. induction l as [|x l IH]; intros s; simpl.
  - destruct o, s; reflexivity.
  - destruct x; simpl; rewrite IH; destruct o, s; simpl;
      repeat match goal with
        | |- context [BlockchainMonitor.quiet_after_stop ?b l] =>
            destruct (BlockchainMonitor.quiet_after_stop b l)
        end;
      destruct (BlockchainMonitor.has_stopped l); reflexivity.
Qed.

Lemma has_stopped_snoc (l : list BlockchainMonitor.Obs) (o : BlockchainMonitor.Obs) :
  BlockchainMonitor.has_stopped (l ++ [o])
  = BlockchainMonitor.has_stopped l
    || match o with BlockchainMonitor.StopReturned => true | _ => false end.
Proof.
  unfold BlockchainMonitor.has_stopped. rewrite existsb_app. simpl.
  now rewrite orb_false_r.
Qed.

(** X12.  The Solana monitor of [blockchain-monitor.js] keeps the
    contract: along every sequence of turns, no purchase is handed to the
    callback once [stop] has returned. *)
Lemma solana_monitor_quiet_after_stop (inputs : list BlockchainMonitor.Input)
    (f : BlockchainMonitor.Feed) :
  BlockchainMonitor.monitorSolanaDexSwaps true = Some f ->
  BlockchainMonitor.quiet_after_stop false
    (BlockchainMonitor.observed (foldl BlockchainMonitor.solana_step f inputs))
  = true.
Proof.
  intros [= <-].
  set (f0 := {| BlockchainMonitor.running := true |}).
  assert (Hinv : BlockchainMonitor.quiet_after_stop false
                   (BlockchainMonitor.observed f0) = true
                 /\ (BlockchainMonitor.has_stopped (BlockchainMonitor.observed f0)
                     = true -> BlockchainMonitor.checkInterval f0 = false)).
  { split; [reflexivity | discriminate]. }
  clearbody f0. revert f0 Hinv.
  induction inputs as [|i inputs IH]; intros f [Hq Hs]; [exact Hq|].
  simpl. apply IH. destruct i as [chance sample|settled chance sample|]; simpl.
  - destruct (BlockchainMonitor.checkInterval f) eqn:Ec; [|auto].
    assert (Hsame : BlockchainMonitor.quiet_after_stop false
                      (BlockchainMonitor.observed f) = true
                    /\ (BlockchainMonitor.has_stopped (BlockchainMonitor.observed f)
                        = true -> BlockchainMonitor.checkInterval f = false)).
    { split; [exact Hq | now rewrite Ec]. }
    destruct (BlockchainMonitor.running f); simpl; [|exact Hsame].
    destruct (gt chance (7 # 10)); [|exact Hsame]. simpl.
    assert (Hns : BlockchainMonitor.has_stopped (BlockchainMonitor.observed f)
                  = false).
    { destruct (BlockchainMonitor.has_stopped _); [|reflexivity].
      now specialize (Hs eq_refl). }
    rewrite quiet_after_stop_snoc, has_stopped_snoc, Hq, Hns. simpl.
    split; [reflexivity | discriminate].
  - auto.
  - unfold BlockchainMonitor.stop. simpl.
    rewrite !quiet_after_stop_snoc, Hq. auto.
Qed.

(** X13.  The BNB monitor of [blockchain-monitor.js] is silent after a
    [stop] that finds no poll in flight: from a feed that has kept the
    contract so far and has no poll pending, no purchase is handed to the
    callback after [stop], whatever turns follow. *)
Lemma bnb_monitor_quiet_without_pending_poll
    (inputs : list BlockchainMonitor.Input) (f : BlockchainMonitor.Feed) :
  BlockchainMonitor.quiet_after_stop false (BlockchainMonitor.observed f) = true ->
  BlockchainMonitor.pending f = 0 ->
  BlockchainMonitor.quiet_after_stop false
    (BlockchainMonitor.observed
       (foldl BlockchainMonitor.bnb_step
          (BlockchainMonitor.bnb_step f BlockchainMonitor.Stop) inputs))
  = true.
Proof.
  intros Hq Hp.
  set (f1 := BlockchainMonitor.bnb_step f BlockchainMonitor.Stop).
  assert (Hinv : BlockchainMonitor.quiet_after_stop false
                   (BlockchainMonitor.observed f1) = true
                 /\ BlockchainMonitor.checkInterval f1 = false
                 /\ BlockchainMonitor.pending f1 = 0).
  { subst f1. simpl. unfold BlockchainMonitor.stop. simpl.
    rewrite !quiet_after_stop_snoc, Hq. auto. }
  clearbody f1. revert f1 Hinv.
  induction inputs as [|i inputs IH]; intros g (Gq & Gc & Gp); [exact Gq|].
  simpl. apply IH. destruct i as [chance sample|settled chance sample|]; simpl.
  - now rewrite Gc.
  - now rewrite Gp.
  - unfold BlockchainMonitor.stop. simpl.
    rewrite !quiet_after_stop_snoc, Gq. auto.
Qed.

(* ===================================================================== *)
(** * Further properties of the tiers *)
(* ===================================================================== *)

(** X1.  The tiers are monotone: a purchase worth more never gets fewer
    emojis. *)
Theorem emojiCount_monotone (a b : Q) :
  (a <= b)%Q -> emojiCount (Finite a) <= emojiCount (Finite b).
Proof.
  intros Hab. unfold emojiCount.
  repeat match goal with
    | |- context [lt (Finite ?x) (Finite ?y)] =>
        let E := fresh "E" in
        destruct (lt (Finite x) (Finite y)) eqn:E;
        [apply lt_Finite in E | apply lt_Finite_false in E]
    end;
    try lia; exfalso; lra.
Qed.

Lemma emojiCount_monotone_witness :
  emojiCount (Finite (4999 # 100)) <= emojiCount (Finite 75).
Proof. apply emojiCount_monotone. discriminate. Defined.

(* ===================================================================== *)
(** * Invariants of the registry *)
(* ===================================================================== *)

Lemma stopped_group_is_silent_witness :
  let w := startBlockchainListener default_env true 42 rocket_config initial in
  let d := {| chance := 9 # 10; sample := sample_tx; delivered := true |} in
  deliveries_of default_env 0
    [Tick 0 d; Start true 42 rocket_config; Tick 0 d]
    (stopBlockchainListener 42 w) = [].
Proof.
  intros w d.
  apply (stopped_group_is_silent default_env 42 "42_TOKEN1"
           {| ref := 1; intervalId := Some 0 |} 0
           [Tick 0 d; Start true 42 rocket_config; Tick 0 d]
           (startBlockchainListener default_env true 42 rocket_config initial)).
  - apply well_formed_start, well_formed_initial.
  - reflexivity.
  - reflexivity.
  - reflexivity.
Defined.

(** X3.  A listener that is replaced falls silent: when a watch is started
    under a key that already has a listener, whether or not the new feed
    opens, nothing is delivered any more on behalf of the timer of the old
    listener, whatever happens next. *)
Theorem replaced_listener_is_silent (env : ProcessEnv) (opens : bool)
    (groupId : Z) (groupConfig : GroupConfig) (existing : Listener)
    (tid : nat) (ops : list Op) (w : World) :
  well_formed w ->
  activeListeners w !! listenerId groupId groupConfig = Some existing ->
  intervalId existing = Some tid ->
  let w' := startBlockchainListener env opens groupId groupConfig w in
  timers w' !! tid = None /\ deliveries_of env tid ops w' = [].
Proof.
  intros [_ Hl] He Hi w'.
  assert (Hlt : tid < nextId w).
  { destruct (Hl _ _ He) as [_ H]. now apply H. }
  assert (Hc : timers_without
                 (activeListeners w !! listenerId groupId groupConfig)
                 (timers w) !! tid = None).
  { rewrite He. destruct existing as [r i]. simpl in Hi. subst i. simpl.
    apply lookup_delete_eq. }
  assert (Hnone : timers w' !! tid = None /\ tid < nextId w').
  { subst w'. destruct opens.
    - destruct (start_opens env groupId groupConfig w) as (_ & -> & -> & _).
      unfold opened_listener. destruct (_ && _); simpl.
      + split; [exact Hc | lia].
      + split; [|lia]. rewrite lookup_insert_ne by lia. exact Hc.
    - pose proof (start_fails env groupId groupConfig w) as Hf. simpl in Hf.
      destruct (production env).
      + destruct Hf as (_ & -> & ->). auto.
      + destruct Hf as (_ & -> & ->). split; [|lia].
        rewrite lookup_insert_ne by lia. exact Hc. }
  split; [apply Hnone|].
  now apply cleared_timer_is_silent.
Qed.

Lemma replaced_listener_is_silent_witness :
  let w := startBlockchainListener default_env true 42 rocket_config initial in
  let d := {| chance := 9 # 10; sample := sample_tx; delivered := true |} in
  deliveries_of default_env 0
    [Tick 0 d; Start true 42 rocket_config; Tick 0 d]
    (startBlockchainListener default_env false 42 rocket_config w) = [].
Proof.
  intros w d.
  apply (replaced_listener_is_silent default_env false 42 rocket_config
           {| ref := 1; intervalId := Some 0 |} 0
           [Tick 0 d; Start true 42 rocket_config; Tick 0 d]
           (startBlockchainListener default_env true 42 rocket_config initial)).
  - apply well_formed_start, well_formed_initial.
  - reflexivity.
  - reflexivity.
Defined.

(* ===================================================================== *)
(** * Keys *)
(* ===================================================================== *)

Lemma pretty_N_go_free (x : N) (s : string) :
  free_of "_" s -> free_of "_" (pretty_N_go x s).
Proof.
  revert s. induction (N.lt_wf_0 x) as [x _ IH]; intros s Hs.
  destruct (decide (x = 0)%N) as [->|Hx].
  - now rewrite pretty_N_go_0.
  - rewrite pretty_N_go_step by lia. apply IH.
    + apply N.div_lt; lia.
    + simpl. split; [|exact Hs].
      unfold pretty_N_char. repeat case_match; discriminate.
Qed.

Lemma pretty_Z_free (z : Z) : free_of "_" (pretty z).
Proof.
  assert (HN : forall p : positive, free_of "_" (pretty p)).
  { intros p. unfold pretty, pretty_positive, pretty, pretty_N.
    case_decide; [discriminate|]. now apply pretty_N_go_free. }
  destruct z as [|p|p].
  - split; [discriminate | exact I].
  - apply HN.
  - change ("-"%char <> "_"%char /\ free_of "_" (pretty p)).
    split; [discriminate | apply HN].
Qed.

Lemma prefix_cons (x y : ascii) (a b : string) :
  String.prefix (String x a) (String y b)
  = if ascii_dec x y then String.prefix a b else false.
Proof. reflexivity. Qed.

(** A string without underscore followed by an underscore is a prefix of
    another such string followed by anything only if the two strings are
    the same. *)
Lemma prefix_underscore (a b t : string) :
  free_of "_" a -> free_of "_" b ->
  String.prefix (a ++ "_") (b ++ "_" ++ t) = true -> a = b.
Proof.
  revert b. induction a as [|x a IH]; intros b Ha Hb H.
  - destruct b as [|y b]; [reflexivity|].
    change (EmptyString ++ "_") with (String "_" EmptyString) in H.
    rewrite append_cons, prefix_cons in H.
    destruct (ascii_dec "_" y) as [<-|_]; [|discriminate].
    destruct Hb as [Hy _]. now elim Hy.
  - destruct b as [|y b].
    + change (EmptyString ++ "_" ++ t) with (String "_" t) in H.
      rewrite append_cons, prefix_cons in H.
      destruct (ascii_dec x "_") as [->|_]; [|discriminate].
      destruct Ha as [Hx _]. now elim Hx.
    + rewrite !append_cons, prefix_cons in H.
      destruct (ascii_dec x y) as [->|_]; [|discriminate].
      destruct Ha as [_ Ha]. destruct Hb as [_ Hb].
      f_equal. now apply IH.
Qed.

Lemma group_prefix (g g' : Z) (t : string) :
  String.prefix (pretty g ++ "_") (pretty g' ++ "_" ++ t) = true -> g = g'.
Proof.
  intros H. apply (inj pretty).
  apply (prefix_underscore _ _ t); auto using pretty_Z_free.
Qed.

Lemma other_group_keys (g g' : Z) (c' : GroupConfig) :
  g <> g' ->
  String.prefix (pretty g ++ "_") (listenerId g' c') = false
  /\ String.prefix (pretty g ++ "_") (listenerId g' c' ++ "_sim") = false.
Proof.
  intros Hne. split.
  - destruct (String.prefix _ (listenerId g' c')) eqn:E; [|reflexivity].
    apply group_prefix in E. contradiction.
  - destruct (String.prefix _ (listenerId g' c' ++ "_sim")) eqn:E;
      [|reflexivity].
    unfold listenerId in E. rewrite !append_assoc in E.
    apply group_prefix in E. contradiction.
Qed.

(** X4.  Keys do not clash across groups or tokens: two watches have the
    same key only if they are of the same group and the same token
    address, and the key of a watch of one group never begins with the
    prefix by which [stopBlockchainListener] selects another group. *)
Theorem listener_keys_are_distinct (g g' : Z) (c c' : GroupConfig) :
  (listenerId g c = listenerId g' c' ->
     g = g' /\ tokenAddress c = tokenAddress c')
  /\ (g <> g' ->
        String.prefix (pretty g ++ "_") (listenerId g' c') = false
        /\ String.prefix (pretty g ++ "_") (listenerId g' c' ++ "_sim") = false).
Proof.
  split.
  - intros H.
    assert (Hg : g = g').
    { apply (group_prefix g g' (tokenAddress c')).
      change (pretty g' ++ "_" ++ tokenAddress c') with (listenerId g' c').
      rewrite <- H. unfold listenerId. rewrite <- append_assoc.
      apply prefix_append. }
    subst g'. split; [reflexivity|]. now apply (listenerId_inj g).
  - apply other_group_keys.
Qed.

Lemma listener_keys_are_distinct_witness :
  String.prefix (pretty 1%Z ++ "_") (listenerId 11 rocket_config) = false
  /\ String.prefix (pretty 1%Z ++ "_") (listenerId (-1) rocket_config) = false.
Proof.
  split.
  - apply (listener_keys_are_distinct 1 11 rocket_config rocket_config). lia.
  - apply (listener_keys_are_distinct 1 (-1) rocket_config rocket_config). lia.
Defined.

(* ===================================================================== *)
(** * One timer, one listener *)
(* ===================================================================== *)

Lemma no_shared_timer_sub (w w' : World) :
  (forall k l, activeListeners w' !! k = Some l -> activeListeners w !! k = Some l) ->
  no_shared_timer w -> no_shared_timer w'.
Proof.
  intros Hsub H k1 k2 l1 l2 tid H1 H2. apply H; auto.
Qed.

Lemma no_shared_timer_fresh (w w' : World) (k : string) (l : Listener)
    (m : gmap string Listener) :
  activeListeners w' = <[k := l]> m ->
  (forall k' x, m !! k' = Some x -> activeListeners w !! k' = Some x) ->
  (forall tid, intervalId l = Some tid -> nextId w <= tid) ->
  well_formed w -> no_shared_timer w -> no_shared_timer w'.
Proof.
  intros Hreg Hsub Hfresh [_ Hwf] H k1 k2 l1 l2 tid.
  rewrite Hreg, !lookup_insert.
  case_decide as E1; case_decide as E2; subst.
  - reflexivity.
  - intros [= <-] H2 I1 I2. apply Hsub in H2.
    destruct (Hwf _ _ H2) as [_ Hlt]. specialize (Hlt _ I2).
    specialize (Hfresh _ I1). lia.
  - intros H1 [= <-] I1 I2. apply Hsub in H1.
    destruct (Hwf _ _ H1) as [_ Hlt]. specialize (Hlt _ I1).
    specialize (Hfresh _ I2). lia.
  - intros H1 H2. apply Hsub in H1, H2. now apply H.
Qed.

Lemma no_shared_timer_start (env : ProcessEnv) (opens : bool) (groupId : Z)
    (groupConfig : GroupConfig) (w : World) :
  well_formed w -> no_shared_timer w ->
  no_shared_timer (startBlockchainListener env opens groupId groupConfig w).
Proof.
  intros Hwf H. destruct opens.
  - destruct (start_opens env groupId groupConfig w) as (Hreg & _).
    apply (no_shared_timer_fresh w _ _ _ _ Hreg); auto.
    intros tid. unfold opened_listener.
    destruct (_ && _); simpl; [discriminate|]. intros [= <-]. lia.
  - pose proof (start_fails env groupId groupConfig w) as Hf. simpl in Hf.
    destruct (production env).
    + destruct Hf as (Hreg & _).
      apply (no_shared_timer_sub w); [|exact H].
      intros k l. rewrite Hreg, lookup_delete. now case_decide.
    + destruct Hf as (Hreg & _).
      apply (no_shared_timer_fresh w _ _ _ _ Hreg); auto.
      * intros k l. rewrite lookup_delete. now case_decide.
      * simpl. intros tid [= <-]. lia.
Qed.

Lemma no_shared_timer_step (env : ProcessEnv) (w : World) (op : Op) :
  well_formed w -> no_shared_timer w -> no_shared_timer (step env w op).
Proof.
  intros Hwf H. destruct op as [replied opens g sd|opens g c|g|t d|t]; simpl.
  - unfold finalizeSetup. destruct replied; [|exact H].
    apply (no_shared_timer_sub
             (startBlockchainListener env opens g (groupConfig_of sd (now w))
                (emit (ReplyWithPhoto g
                         (if String.eqb (setup_imageFileId sd) "default"
                          then LocalFile "assets/default.png"
                          else FileId (setup_imageFileId sd))
                         (setup_complete_text sd) true)
                   (saveGroup g (groupConfig_of sd (now w)) w))));
      [auto|].
    apply no_shared_timer_start; [|exact H].
    eapply well_formed_same; [reflexivity | reflexivity | reflexivity | exact Hwf].
  - now apply no_shared_timer_start.
  - apply (no_shared_timer_sub w); [|exact H].
    intros k l. rewrite stopBlockchainListener_unfold.
    intros Hx. apply foldl_stop_key_Some in Hx. exact Hx.
  - apply (no_shared_timer_sub w); [|exact H].
    destruct (tick_frame env t d w) as (-> & _). auto.
  - exact H.
Qed.

Lemma no_shared_timer_run (env : ProcessEnv) (ops : list Op) (w : World) :
  well_formed w -> no_shared_timer w -> no_shared_timer (run env ops w).
Proof.
  revert w. induction ops as [|op ops IH]; intros w Hwf Hn; [exact Hn|].
  simpl. apply IH.
  - now apply well_formed_step.
  - now apply no_shared_timer_step.
Qed.

Lemma no_shared_timer_initial : no_shared_timer initial.
Proof.
  intros k1 k2 l1 l2 tid H1. simpl in H1. rewrite lookup_empty in H1.
  discriminate.
Qed.

(** X5.  Along every run of the bot from its launch no two registered
    listeners hold the same timer: stopping one listener never silences
    the feed of another. *)
Theorem reachable_no_shared_timer (env : ProcessEnv) (ops : list Op) :
  no_shared_timer (run env ops initial).
Proof.
  apply no_shared_timer_run;
    [apply well_formed_initial | apply no_shared_timer_initial].
Qed.

Lemma foldl_stop_key_keeps_timer (groupId : Z) (ks : list string) (w : World)
    (tid : nat) :
  (forall key l,
      String.prefix (pretty groupId ++ "_") key = true ->
      activeListeners w !! key = Some l -> intervalId l <> Some tid) ->
  timers (foldl (stop_key groupId) w ks) !! tid = timers w !! tid.
Proof.
  revert w. induction ks as [|key ks IH]; intros w H; simpl; [reflexivity|].
  rewrite IH.
  - unfold stop_key.
    destruct (String.prefix _ key) eqn:Ep; [|reflexivity].
    destruct (activeListeners w !! key) as [l|] eqn:El; simpl; [|reflexivity].
    destruct (stop_frame l w) as (_ & -> & _).
    specialize (H key l Ep El).
    destruct l as [r [t|]]; simpl in *; [|reflexivity].
    apply lookup_delete_ne. congruence.
  - intros key' l Hp Hl. rewrite stop_key_lookup in Hl.
    destruct (_ && _); [discriminate|]. now apply (H key' l).
Qed.

(** X6.  Stopping the listeners of one group leaves the watches of every
    other group alone: their registry entries, simulator entries included,
    are as before, and, when no two listeners share a timer, the timers
    their listeners hold are untouched. *)
Theorem stop_group_spares_other_groups (g g' : Z) (groupConfig : GroupConfig)
    (w : World) :
  g <> g' ->
  let w1 := stopBlockchainListener g w in
  activeListeners w1 !! listenerId g' groupConfig
  = activeListeners w !! listenerId g' groupConfig
  /\ activeListeners w1 !! (listenerId g' groupConfig ++ "_sim")
     = activeListeners w !! (listenerId g' groupConfig ++ "_sim")
  /\ (no_shared_timer w ->
      forall key l tid,
        key = listenerId g' groupConfig
        \/ key = listenerId g' groupConfig ++ "_sim" ->
        activeListeners w !! key = Some l ->
        intervalId l = Some tid ->
        timers w1 !! tid = timers w !! tid).
Proof.
  intros Hne w1. subst w1.
  destruct (other_group_keys g g' groupConfig Hne) as [Hp1 Hp2].
  rewrite stopBlockchainListener_unfold.
  split; [now rewrite foldl_stop_key_other by exact Hp1|].
  split; [now rewrite foldl_stop_key_other by exact Hp2|].
  intros Hshare key l tid Hkey Hl Hi.
  rewrite foldl_stop_key_keeps_timer; [reflexivity|].
  intros key' l' Hp' Hl' Hi'. simpl in Hl'.
  assert (key' = key) by (apply (Hshare key' key l' l tid); auto).
  subst key'. destruct Hkey as [-> | ->]; congruence.
Qed.

Lemma stop_group_spares_other_groups_witness :
  let w := startBlockchainListener default_env true 7 rocket_config
             (startBlockchainListener default_env true 42 rocket_config initial) in
  activeListeners (stopBlockchainListener 42 w) !! "7_TOKEN1"
  = Some {| ref := 3; intervalId := Some 2 |}
  /\ timers (stopBlockchainListener 42 w) !! 2
     = Some (BnbPoll (Notify 7 rocket_config)).
Proof.
  intros w.
  destruct (stop_group_spares_other_groups 42 7 rocket_config w) as (H1 & _ & H3).
  - lia.
  - split; [exact H1|].
    apply (H3 (no_shared_timer_run default_env
                 [Start true 42 rocket_config; Start true 7 rocket_config]
                 initial well_formed_initial no_shared_timer_initial)
              "7_TOKEN1" {| ref := 3; intervalId := Some 2 |} 2);
      [left|..]; reflexivity.
Defined.

(* ===================================================================== *)
(** * At most one feed per key *)
(* ===================================================================== *)

Lemma feeds_registered_start (env : ProcessEnv) (opens : bool) (groupId : Z)
    (groupConfig : GroupConfig) (w : World) :
  production env || opens = true ->
  feeds_registered w ->
  feeds_registered (startBlockchainListener env opens groupId groupConfig w).
Proof.
  intros Hno H.
  assert (Hold : forall (m : gmap string Listener) tid cb,
             (forall k x, k <> listenerId groupId groupConfig ->
                          activeListeners w !! k = Some x -> m !! k = Some x) ->
             timers_without
               (activeListeners w !! listenerId groupId groupConfig)
               (timers w) !! tid = Some cb ->
             exists key r, feed_key cb = Some key
                           /\ m !! key = Some {| ref := r; intervalId := Some tid |}).
  { intros m tid cb Hm Hc.
    pose proof (timers_without_Some _ _ _ _ Hc) as Ht.
    destruct (H tid cb Ht) as (key & r & Hk & Hr).
    exists key, r. split; [exact Hk|].
    apply Hm; [|exact Hr].
    intros ->. rewrite Hr in Hc. simpl in Hc.
    rewrite lookup_delete_eq in Hc. discriminate. }
  destruct opens.
  - destruct (start_opens env groupId groupConfig w) as (Hreg & Htim & _).
    intros tid cb. rewrite Hreg, Htim.
    unfold opened_listener, poll_of.
    destruct (is_BNB groupConfig) eqn:EB; destruct (production env) eqn:EP;
      simpl.
    + intros Hc. apply (Hold _ tid cb); [|exact Hc].
      intros k x Hk Hx. now rewrite lookup_insert_ne by congruence.
    + rewrite lookup_insert. case_decide as Ht.
      * subst tid. intros [= <-]. exists (listenerId groupId groupConfig), (S (nextId w)).
        split; [reflexivity|]. apply lookup_insert_eq.
      * intros Hc. apply (Hold _ tid cb); [|exact Hc].
        intros k x Hk Hx. now rewrite lookup_insert_ne by congruence.
    + rewrite lookup_insert. case_decide as Ht.
      * subst tid. intros [= <-]. exists (listenerId groupId groupConfig), (S (nextId w)).
        split; [reflexivity|]. apply lookup_insert_eq.
      * intros Hc. apply (Hold _ tid cb); [|exact Hc].
        intros k x Hk Hx. now rewrite lookup_insert_ne by congruence.
    + rewrite lookup_insert. case_decide as Ht.
      * subst tid. intros [= <-]. exists (listenerId groupId groupConfig), (S (nextId w)).
        split; [reflexivity|]. apply lookup_insert_eq.
      * intros Hc. apply (Hold _ tid cb); [|exact Hc].
        intros k x Hk Hx. now rewrite lookup_insert_ne by congruence.
  - pose proof (start_fails env groupId groupConfig w) as Hf. simpl in Hf.
    destruct (production env); [|discriminate].
    destruct Hf as (Hreg & Htim & _).
    intros tid cb. rewrite Hreg, Htim. intros Hc.
    apply (Hold _ tid cb); [|exact Hc].
    intros k x Hk Hx. now rewrite lookup_delete_ne by congruence.
Qed.

Lemma foldl_stop_key_timer_Some (groupId : Z) (ks : list string) (w : World)
    (tid : nat) (cb : IntervalCallback) :
  timers (foldl (stop_key groupId) w ks) !! tid = Some cb ->
  timers w !! tid = Some cb.
Proof.
  revert w. induction ks as [|key ks IH]; intros w H; simpl in H; [exact H|].
  apply IH in H. unfold stop_key in H.
  destruct (String.prefix _ key); [|exact H].
  destruct (activeListeners w !! key) as [l|]; simpl in H; [|exact H].
  destruct (stop_frame l w) as (_ & Ht & _). rewrite Ht in H.
  now apply timers_without_Some in H.
Qed.

Lemma feeds_registered_stop (groupId : Z) (w : World) :
  feeds_registered w -> feeds_registered (stopBlockchainListener groupId w).
Proof.
  intros H tid cb Hc. rewrite stopBlockchainListener_unfold in Hc |- *.
  pose proof (foldl_stop_key_timer_Some _ _ _ _ _ Hc) as Ht. simpl in Ht.
  destruct (H tid cb Ht) as (key & r & Hk & Hr).
  exists key, r. split; [exact Hk|].
  destruct (String.prefix (pretty groupId ++ "_") key) eqn:Ep.
  - rewrite (foldl_stop_key_clears groupId (keys w) _ key
               {| ref := r; intervalId := Some tid |} tid) in Hc;
      [discriminate| |exact Ep|exact Hr|reflexivity].
    apply elem_of_keys. eauto.
  - rewrite foldl_stop_key_other by exact Ep. exact Hr.
Qed.

Lemma feeds_registered_step (env : ProcessEnv) (w : World) (op : Op) :
  no_fallback env op = true ->
  feeds_registered w -> feeds_registered (step env w op).
Proof.
  intros Hno H. destruct op as [replied opens g sd|opens g c|g|t d|t]; simpl.
  - unfold finalizeSetup. destruct replied; [|exact H].
    unfold no_fallback in Hno. simpl in Hno.
    apply (feeds_registered_start env opens g _
             (emit _ (saveGroup g (groupConfig_of sd (now w)) w)) Hno H).
  - now apply feeds_registered_start.
  - now apply feeds_registered_stop.
  - destruct (tick_frame env t d w) as (Hreg & _ & _ & Htim).
    intros tid cb. rewrite Hreg. destruct Htim as [-> | ->]; [apply H|].
    rewrite lookup_delete. case_decide; [discriminate | apply H].
  - exact H.
Qed.

(** X7.  At most one feed per key.  Along every run of the bot from its
    launch in which no start falls back on the simulator, every live timer
    is the interval of a monitor feed and is held by the listener
    registered under the key of that feed; hence two live timers never
    serve the same key. *)
Theorem at_most_one_feed_per_key (env : ProcessEnv) (ops : list Op) :
  forallb (no_fallback env) ops = true ->
  let w := run env ops initial in
  feeds_registered w
  /\ forall tid1 tid2 cb1 cb2,
       timers w !! tid1 = Some cb1 -> timers w !! tid2 = Some cb2 ->
       feed_key cb1 = feed_key cb2 -> tid1 = tid2.
Proof.
  intros Hno w.
  assert (Hreg : feeds_registered w).
  { subst w.
    assert (H : forall w0, feeds_registered w0 ->
                           feeds_registered (run env ops w0)).
    { induction ops as [|op ops IH]; intros w0 H0; [exact H0|].
      simpl in Hno. apply andb_prop in Hno as [Hop Hrest].
      simpl. apply IH; [exact Hrest|].
      now apply feeds_registered_step. }
    apply H. intros tid cb Hc. simpl in Hc. rewrite lookup_empty in Hc.
    discriminate. }
  split; [exact Hreg|].
  intros tid1 tid2 cb1 cb2 H1 H2 Hk.
  destruct (Hreg _ _ H1) as (k1 & r1 & K1 & R1).
  destruct (Hreg _ _ H2) as (k2 & r2 & K2 & R2).
  rewrite K1, K2 in Hk. injection Hk as ->.
  rewrite R1 in R2. now injection R2.
Qed.

Lemma at_most_one_feed_per_key_witness :
  let w := run default_env
             [ Start true 42 rocket_config; Start true 42 rocket_config;
               Start true 42 rocket_config ] initial in
  exists key r,
    feed_key (BnbPoll (Notify 42 rocket_config)) = Some key
    /\ activeListeners w !! key = Some {| ref := r; intervalId := Some 4 |}.
Proof.
  intros w.
  destruct (at_most_one_feed_per_key default_env
              [ Start true 42 rocket_config; Start true 42 rocket_config;
                Start true 42 rocket_config ] eq_refl) as [Hreg _].
  apply (Hreg 4 (BnbPoll (Notify 42 rocket_config))). reflexivity.
Defined.

(* ===================================================================== *)
(** * Starts that fail *)
(* ===================================================================== *)

Lemma length_append (a b : string) :
  String.length (a ++ b) = String.length a + String.length b.
Proof.
  induction a as [|x a IH]; [reflexivity|].
  rewrite append_cons. simpl. now rewrite IH.
Qed.

Lemma sim_key_differs (key : string) : key ++ "_sim" <> key.
Proof.
  intros H. apply (f_equal String.length) in H.
  rewrite length_append in H. simpl in H. lia.
Qed.

(** X8.  A start whose feed does not open leaves no listener under the key
    of the watch: the listener that was there has been stopped, its timer
    is cleared, and nothing replaces it.  In production the rest of the
    registry is untouched and no timer is created; outside production the
    simulator is registered under the key with [_sim] appended, with a
    new timer. *)
Theorem failed_start_leaves_no_listener (env : ProcessEnv) (groupId : Z)
    (groupConfig : GroupConfig) (w : World) :
  well_formed w ->
  let key := listenerId groupId groupConfig in
  let w' := startBlockchainListener env false groupId groupConfig w in
  activeListeners w' !! key = None
  /\ (forall existing tid,
        activeListeners w !! key = Some existing ->
        intervalId existing = Some tid ->
        timers w' !! tid = None)
  /\ (production env = true ->
        nextId w' = nextId w
        /\ forall k, k <> key -> activeListeners w' !! k = activeListeners w !! k)
  /\ (production env = false ->
        activeListeners w' !! (key ++ "_sim")
        = Some {| ref := S (nextId w); intervalId := Some (nextId w) |}
        /\ timers w' !! nextId w = Some (SimPoll groupId groupConfig)).
Proof.
  intros [_ Hl] key w'.
  pose proof (start_fails env groupId groupConfig w) as Hf. simpl in Hf.
  fold key in Hf. fold w' in Hf.
  assert (Hc : forall existing tid,
             activeListeners w !! key = Some existing ->
             intervalId existing = Some tid ->
             timers_without (activeListeners w !! key) (timers w) !! tid = None
             /\ tid < nextId w).
  { intros existing tid He Hi. split.
    - rewrite He. destruct existing as [r i]. simpl in Hi. subst i. simpl.
      apply lookup_delete_eq.
    - destruct (Hl _ _ He) as [_ H]. now apply H. }
  destruct (production env).
  - destruct Hf as (Hreg & Htim & Hnext).
    split; [rewrite Hreg; apply lookup_delete_eq|].
    split; [intros e t He Hi; rewrite Htim; now apply (Hc e t)|].
    split; [|discriminate].
    intros _. split; [exact Hnext|].
    intros k Hk. rewrite Hreg. now apply lookup_delete_ne.
  - destruct Hf as (Hreg & Htim & Hnext).
    split.
    { rewrite Hreg, lookup_insert_ne by apply sim_key_differs.
      apply lookup_delete_eq. }
    split.
    { intros e t He Hi. destruct (Hc e t He Hi) as [Hn Hlt].
      rewrite Htim, lookup_insert_ne by lia. exact Hn. }
    split; [discriminate|].
    intros _. split.
    + rewrite Hreg. apply lookup_insert_eq.
    + rewrite Htim. apply lookup_insert_eq.
Qed.

Lemma failed_start_leaves_no_listener_witness :
  let w := startBlockchainListener default_env true 42 rocket_config initial in
  let w' := startBlockchainListener default_env false 42 rocket_config w in
  activeListeners w' !! "42_TOKEN1" = None
  /\ timers w' !! 0 = None
  /\ timers w' !! 2 = Some (SimPoll 42 rocket_config).
Proof.
  intros w w'.
  destruct (failed_start_leaves_no_listener default_env 42 rocket_config w)
    as (H1 & H2 & _ & H4).
  - apply well_formed_start, well_formed_initial.
  - split; [exact H1|]. split.
    + apply (H2 {| ref := 1; intervalId := Some 0 |} 0); reflexivity.
    + apply (H4 eq_refl).
Defined.

(** X9.  The simulator can leak.  Outside production, when the feed of
    the same watch fails to open twice, the second simulator takes the
    registry entry of the first without stopping it: the timer of the
    first simulator stays live, no registered listener holds it, and
    [stopBlockchainListener] for the group does not clear it. *)
Theorem simulator_leaks_on_repeated_failure (env : ProcessEnv) (groupId : Z)
    (groupConfig : GroupConfig) (w : World) :
  well_formed w ->
  production env = false ->
  let w1 := startBlockchainListener env false groupId groupConfig w in
  let w2 := startBlockchainListener env false groupId groupConfig w1 in
  let w3 := stopBlockchainListener groupId w2 in
  timers w2 !! nextId w = Some (SimPoll groupId groupConfig)
  /\ timers w2 !! nextId w1 = Some (SimPoll groupId groupConfig)
  /\ nextId w <> nextId w1
  /\ (forall key l, activeListeners w2 !! key = Some l ->
                    intervalId l <> Some (nextId w))
  /\ timers w3 !! nextId w = Some (SimPoll groupId groupConfig)
  /\ timers w3 !! nextId w1 = None.
Proof.
  intros Hwf Hprod w1 w2 w3.
  pose proof (start_fails env groupId groupConfig w) as H1.
  pose proof (start_fails env groupId groupConfig w1) as H2.
  simpl in H1, H2. rewrite Hprod in H1, H2.
  fold w1 in H1, H2. fold w2 in H2.
  destruct H1 as (Hreg1 & Htim1 & Hnext1).
  destruct H2 as (Hreg2 & Htim2 & Hnext2).
  set (key := listenerId groupId groupConfig) in *.
  assert (Hnokey : activeListeners w1 !! key = None).
  { rewrite Hreg1, lookup_insert_ne by apply sim_key_differs.
    apply lookup_delete_eq. }
  rewrite Hnokey in Htim2. simpl in Htim2.
  rewrite (delete_id _ _ Hnokey) in Hreg2.
  assert (Hlive1 : timers w1 !! nextId w = Some (SimPoll groupId groupConfig)).
  { rewrite Htim1. apply lookup_insert_eq. }
  assert (Hlive2 : timers w2 !! nextId w = Some (SimPoll groupId groupConfig)).
  { rewrite Htim2, lookup_insert_ne by lia. exact Hlive1. }
  assert (Hheld : forall k l, activeListeners w2 !! k = Some l ->
                              intervalId l <> Some (nextId w)).
  { intros k l. rewrite Hreg2, lookup_insert.
    case_decide as Hk.
    - intros [= <-]. simpl. intros [= E]. lia.
    - rewrite Hreg1, lookup_insert_ne by congruence.
      rewrite lookup_delete. case_decide; [discriminate|].
      intros Hl Hi. destruct Hwf as [_ Hw].
      destruct (Hw _ _ Hl) as [_ Hlt]. specialize (Hlt _ Hi). lia. }
  split; [exact Hlive2|].
  split; [rewrite Htim2; apply lookup_insert_eq|].
  split; [lia|].
  split; [exact Hheld|].
  subst w3. rewrite stopBlockchainListener_unfold. split.
  - rewrite foldl_stop_key_keeps_timer; [exact Hlive2|].
    intros k l _ Hl. now apply (Hheld k l).
  - apply (foldl_stop_key_clears groupId (keys w2) _ (key ++ "_sim")
             {| ref := S (nextId w1); intervalId := Some (nextId w1) |}).
    + apply elem_of_keys. simpl. rewrite Hreg2, lookup_insert_eq. eauto.
    + unfold key, listenerId. rewrite <- append_assoc, append_assoc.
      apply prefix_append.
    + simpl. rewrite Hreg2. apply lookup_insert_eq.
    + reflexivity.
Qed.

Lemma simulator_leaks_on_repeated_failure_witness :
  let w2 := startBlockchainListener default_env false 42 rocket_config
              (startBlockchainListener default_env false 42 rocket_config initial) in
  timers (stopBlockchainListener 42 w2) !! 0 = Some (SimPoll 42 rocket_config)
  /\ timers (stopBlockchainListener 42 w2) !! 2 = None.
Proof.
  destruct (simulator_leaks_on_repeated_failure default_env 42 rocket_config
              initial well_formed_initial eq_refl)
    as (_ & _ & _ & _ & H5 & H6).
  split; [exact H5 | exact H6].
Defined.

(** X10.  The simulator stops itself.  When the interval of a simulator
    fires while its group is unknown to the store or stored as inactive,
    nothing is delivered, the timer is cleared and never delivers again;
    the registry is left as it was, so the simulator's entry stays
    behind. *)
Theorem simulator_stops_when_group_inactive (env : ProcessEnv) (tid : nat)
    (d : Draw) (groupId : Z) (groupConfig : GroupConfig) (w : World) :
  timers w !! tid = Some (SimPoll groupId groupConfig) ->
  (forall groupData, getGroup groupId w = Some groupData ->
                     isActive groupData = false) ->
  tid < nextId w ->
  let w' := tick env tid d w in
  payloads (new_events w w') = []
  /\ timers w' !! tid = None
  /\ activeListeners w' = activeListeners w
  /\ forall ops, deliveries_of env tid ops w' = [].
Proof.
  intros Ht Hinactive Hlt w'.
  assert (Hw : w' = clearInterval tid
                      (logger_log "Stopping transaction simulator - group inactive" w)).
  { subst w'. unfold tick. rewrite Ht.
    destruct (getGroup groupId w) as [groupData|] eqn:Eg; [|reflexivity].
    now rewrite (Hinactive groupData eq_refl). }
  rewrite Hw.
  split.
  { rewrite (new_events_app w _
               [Log INFO (now w) "Stopping transaction simulator - group inactive"]);
      reflexivity. }
  assert (Hnone : timers (clearInterval tid
                            (logger_log "Stopping transaction simulator - group inactive" w))
                  !! tid = None) by apply lookup_delete_eq.
  split; [exact Hnone|]. split; [reflexivity|].
  intros ops. now apply cleared_timer_is_silent.
Qed.

Lemma simulator_stops_when_group_inactive_witness :
  let w := startBlockchainListener default_env false 42 rocket_config initial in
  let d := {| chance := 0; sample := sample_tx; delivered := true |} in
  timers w !! 0 = Some (SimPoll 42 rocket_config)
  /\ timers (tick default_env 0 d w) !! 0 = None.
Proof.
  intros w d. split; [reflexivity|].
  apply (simulator_stops_when_group_inactive default_env 0 d 42 rocket_config w).
  - reflexivity.
  - intros groupData H. discriminate.
  - simpl. lia.
Defined.

(* ===================================================================== *)
(** * The configuration store *)
(* ===================================================================== *)

Lemma finalizeSetup_store (env : ProcessEnv) (replied opens : bool)
    (chatId : Z) (setupData : SetupData) (w : World) :
  let w' := finalizeSetup env replied opens chatId setupData w in
  getGroup chatId w' = Some (groupConfig_of setupData (now w))
  /\ isActive (groupConfig_of setupData (now w)) = true
  /\ tokenInfo (groupConfig_of setupData (now w)) = Some (setup_tokenInfo setupData)
  /\ (forall g, g <> chatId -> getGroup g w' = getGroup g w)
  /\ (replied = false ->
        activeListeners w' = activeListeners w
        /\ timers w' = timers w
        /\ nextId w' = nextId w
        /\ payloads (new_events w w') = []).
Proof.
  intros w'.
  assert (Hg : groups w' = <[chatId := groupConfig_of setupData (now w)]> (groups w)).
  { subst w'. unfold finalizeSetup. destruct replied; [|reflexivity].
    simpl. destruct opens.
    - now destruct (start_opens env chatId (groupConfig_of setupData (now w))
                      (emit (ReplyWithPhoto chatId
                               (if String.eqb (setup_imageFileId setupData) "default"
                                then LocalFile "assets/default.png"
                                else FileId (setup_imageFileId setupData))
                               (setup_complete_text setupData) true)
                         (saveGroup chatId (groupConfig_of setupData (now w)) w)))
        as (_ & _ & _ & -> & _).
    - unfold startBlockchainListener, monitorBnbDexSwaps, monitorSolanaDexSwaps,
        simulateBuyTransactions. simpl.
      destruct (activeListeners w !! _) as [[r [t|]]|];
        destruct (is_BNB _); destruct (production env); reflexivity. }
  unfold getGroup. rewrite Hg.
  split; [apply lookup_insert_eq|]. split; [reflexivity|]. split; [reflexivity|].
  split; [intros g Hne; now apply lookup_insert_ne|].
  intros ->. subst w'. unfold finalizeSetup.
  repeat split; try reflexivity.
  unfold new_events. simpl. rewrite <- !app_assoc. simpl.
  now rewrite drop_app_length.
Qed.

(** X11.  Completing the setup stores the configuration of the group as
    active before anything else, whatever follows: it can be read back,
    the other groups are untouched, and when the confirmation message
    fails no listener is started (the registry and the timers are as
    before) although the group stays stored as active. *)
Theorem finalizeSetup_stores_config (env : ProcessEnv) (replied opens : bool)
    (chatId : Z) (setupData : SetupData) (w : World) :
  let w' := finalizeSetup env replied opens chatId setupData w in
  getGroup chatId w' = Some (groupConfig_of setupData (now w))
  /\ isActive (groupConfig_of setupData (now w)) = true
  /\ tokenInfo (groupConfig_of setupData (now w)) = Some (setup_tokenInfo setupData)
  /\ (forall g, g <> chatId -> getGroup g w' = getGroup g w)
  /\ (replied = false ->
        activeListeners w' = activeListeners w
        /\ timers w' = timers w
        /\ nextId w' = nextId w
        /\ payloads (new_events w w') = []).
Proof. apply finalizeSetup_store. Qed.

Lemma finalizeSetup_stores_config_witness :
  let w' := finalizeSetup default_env false true 42 (sample_setup "TOKENA") initial in
  activeListeners w' = activeListeners initial
  /\ getGroup 42 w' = Some (groupConfig_of (sample_setup "TOKENA") 0).
Proof.
  destruct (finalizeSetup_stores_config default_env false true 42
              (sample_setup "TOKENA") initial) as (H1 & _ & _ & _ & H5).
  split; [apply (H5 eq_refl) | exact H1].
Defined.

(* ===================================================================== *)
(** * The BNB monitor of [blockchain-monitor.js] *)
(* ===================================================================== *)

Lemma solana_monitor_quiet_after_stop_witness :
  BlockchainMonitor.quiet_after_stop false
    (BlockchainMonitor.observed
       (foldl BlockchainMonitor.solana_step
          {| BlockchainMonitor.running := true;
             BlockchainMonitor.checkInterval := true;
             BlockchainMonitor.lastBlockNumber := 0;
             BlockchainMonitor.pending := 0;
             BlockchainMonitor.observed :=
               [BlockchainMonitor.Logged INFO "Starting Solana DEX monitoring"] |}
          [ BlockchainMonitor.IntervalFires (9 # 10) sample_tx;
            BlockchainMonitor.Stop;
            BlockchainMonitor.IntervalFires (9 # 10) sample_tx ]))
  = true.
Proof. apply solana_monitor_quiet_after_stop. reflexivity. Defined.

Lemma bnb_monitor_quiet_without_pending_poll_witness :
  BlockchainMonitor.quiet_after_stop false
    (BlockchainMonitor.observed
       (foldl BlockchainMonitor.bnb_step
          (BlockchainMonitor.bnb_step
             {| BlockchainMonitor.running := true;
                BlockchainMonitor.checkInterval := true;
                BlockchainMonitor.lastBlockNumber := 100;
                BlockchainMonitor.pending := 0;
                BlockchainMonitor.observed := [] |}
             BlockchainMonitor.Stop)
          [ BlockchainMonitor.IntervalFires (9 # 10) sample_tx;
            BlockchainMonitor.BlockNumberSettles (Some 101%Z) (9 # 10) sample_tx ]))
  = true.
Proof. apply bnb_monitor_quiet_without_pending_poll; reflexivity. Defined.

Lemma emitted_count_snoc (l : list BlockchainMonitor.Obs) (o : BlockchainMonitor.Obs) :
  emitted_count (l ++ [o])
  = emitted_count l
    + match o with BlockchainMonitor.Emitted _ => 1 | _ => 0 end.
Proof.
  unfold emitted_count. rewrite List.filter_app, List.length_app.
  destruct o; reflexivity.
Qed.

Lemma bnb_step_accounting (f : BlockchainMonitor.Feed) (i : BlockchainMonitor.Input) :
  let f' := BlockchainMonitor.bnb_step f i in
  (BlockchainMonitor.lastBlockNumber f <= BlockchainMonitor.lastBlockNumber f')%Z
  /\ (Z.of_nat (emitted_count (BlockchainMonitor.observed f'))
        + BlockchainMonitor.lastBlockNumber f
      <= Z.of_nat (emitted_count (BlockchainMonitor.observed f))
         + BlockchainMonitor.lastBlockNumber f')%Z
  /\ emitted_count (BlockchainMonitor.observed f') + BlockchainMonitor.pending f'
     <= emitted_count (BlockchainMonitor.observed f) + BlockchainMonitor.pending f
        + firings [i].
Proof.
  destruct i as [chance sample|settled chance sample|]; simpl.
  - destruct (BlockchainMonitor.checkInterval f),
      (BlockchainMonitor.running f); simpl; unfold firings; simpl; lia.
  - destruct (BlockchainMonitor.pending f) as [|n] eqn:Ep; simpl.
    { unfold firings; simpl; lia. }
    destruct settled as [b|]; simpl.
    + destruct (BlockchainMonitor.lastBlockNumber f <? b)%Z eqn:Eb; simpl.
      * apply Z.ltb_lt in Eb.
        destruct (gt chance (7 # 10)); simpl;
          rewrite ?emitted_count_snoc; simpl; unfold firings; simpl; lia.
      * unfold firings; simpl; lia.
    + rewrite emitted_count_snoc. simpl. unfold firings; simpl; lia.
  - unfold BlockchainMonitor.stop. simpl.
    rewrite !emitted_count_snoc. simpl. unfold firings; simpl; lia.
Qed.

Lemma firings_cons (i : BlockchainMonitor.Input) (inputs : list BlockchainMonitor.Input) :
  firings (i :: inputs) = firings [i] + firings inputs.
Proof. unfold firings. simpl. now destruct i. Qed.

(** X14.  The BNB monitor hands at most one purchase to its callback per
    advance of the block number and per firing of its interval.  Along
    every sequence of turns the last block number never decreases, the
    number of purchases emitted is at most the increase of the last block
    number, and the purchases emitted plus the polls still in flight are
    at most the firings of the interval plus the polls in flight at the
    beginning.  A purchase counts as emitted when the callback has
    returned: a callback that throws is caught with the errors of the
    poll and leaves the last block number where it was. *)
Theorem bnb_monitor_emits_once_per_block_advance
    (inputs : list BlockchainMonitor.Input) (f : BlockchainMonitor.Feed) :
  let f' := foldl BlockchainMonitor.bnb_step f inputs in
  (BlockchainMonitor.lastBlockNumber f <= BlockchainMonitor.lastBlockNumber f')%Z
  /\ (Z.of_nat (emitted_count (BlockchainMonitor.observed f'))
      <= Z.of_nat (emitted_count (BlockchainMonitor.observed f))
         + (BlockchainMonitor.lastBlockNumber f'
            - BlockchainMonitor.lastBlockNumber f))%Z
  /\ emitted_count (BlockchainMonitor.observed f') + BlockchainMonitor.pending f'
     <= emitted_count (BlockchainMonitor.observed f) + BlockchainMonitor.pending f
        + firings inputs.
Proof.
  revert f. induction inputs as [|i inputs IH]; intros f; simpl.
  - unfold firings. simpl. lia.
  - destruct (IH (BlockchainMonitor.bnb_step f i)) as (I1 & I2 & I3).
    destruct (bnb_step_accounting f i) as (S1 & S2 & S3).
    simpl in S1, S2, S3. rewrite firings_cons. lia.
Qed.

(** X15.  Only [stop] ends the BNB monitor: along every sequence of turns
    in which the owner does not call [stop], rejected polls included, the
    feed stays running with its interval set. *)
Theorem bnb_monitor_survives_poll_errors
    (inputs : list BlockchainMonitor.Input) (f : BlockchainMonitor.Feed) :
  stop_requested inputs = false ->
  let f' := foldl BlockchainMonitor.bnb_step f inputs in
  BlockchainMonitor.running f' = BlockchainMonitor.running f
  /\ BlockchainMonitor.checkInterval f' = BlockchainMonitor.checkInterval f.
Proof.
  revert f. induction inputs as [|i inputs IH]; intros f Hs; simpl; [auto|].
  simpl in Hs. apply orb_false_elim in Hs as [Hi Hrest].
  destruct (IH (BlockchainMonitor.bnb_step f i) Hrest) as [-> ->].
  destruct i as [chance sample|settled chance sample|]; simpl;
    [| |discriminate].
  - destruct (BlockchainMonitor.checkInterval f) eqn:E1,
      (BlockchainMonitor.running f) eqn:E2; simpl; auto.
  - destruct (BlockchainMonitor.pending f); simpl; [auto|].
    destruct settled as [b|]; simpl; [|auto].
    destruct (_ <? b)%Z; simpl; [|auto].
    destruct (gt chance (7 # 10)); auto.
Qed.

Lemma bnb_monitor_survives_poll_errors_witness :
  exists f : BlockchainMonitor.Feed,
    BlockchainMonitor.bnb_run 100
      [ BlockchainMonitor.IntervalFires 0 sample_tx;
        BlockchainMonitor.BlockNumberSettles None 0 sample_tx;
        BlockchainMonitor.IntervalFires 0 sample_tx;
        BlockchainMonitor.BlockNumberSettles (Some 101%Z) (9 # 10) sample_tx ]
    = Some f
    /\ BlockchainMonitor.running f = true
    /\ emitted_count (BlockchainMonitor.observed f) = 1.
Proof.
  eexists. split; [reflexivity|]. split; [|reflexivity].
  apply (bnb_monitor_survives_poll_errors
           [ BlockchainMonitor.IntervalFires 0 sample_tx;
             BlockchainMonitor.BlockNumberSettles None 0 sample_tx;
             BlockchainMonitor.IntervalFires 0 sample_tx;
             BlockchainMonitor.BlockNumberSettles (Some 101%Z) (9 # 10) sample_tx ]
           {| BlockchainMonitor.running := true;
              BlockchainMonitor.checkInterval := true;
              BlockchainMonitor.lastBlockNumber := 100;
              BlockchainMonitor.pending := 0;
              BlockchainMonitor.observed :=
                [BlockchainMonitor.Logged INFO "Starting BNB Chain DEX monitoring"] |}).
  reflexivity.
Defined.

(* ===================================================================== *)
(** * The setup wizard *)
(* ===================================================================== *)


Lemma grows_trans (a b c : SetupObject) : grows a b -> grows b c -> grows a c.
Proof. unfold grows. tauto. Qed.
















Lemma current_store (chatId : Z) (r : nat) (o : SetupObject) (w : Wizard) :
  current chatId (store chatId r o w) = Some (r, o).
Proof. unfold current. simpl. now rewrite !lookup_insert_eq. Qed.

Lemma current_suspend (chatId : Z) (s : Suspended) (w : Wizard) :
  current chatId (suspend s w) = current chatId w.
Proof. reflexivity. Qed.

Lemma current_settle (chatId : Z) (k : nat) (w : Wizard) :
  current chatId (settle k w) = current chatId w.
Proof. reflexivity. Qed.

Lemma current_new_setup (chatId : Z) (w : Wizard) :
  current chatId (new_setup chatId w)
  = Some (nextObject w,
          {| wizard_step := "blockchain_selection"; wizard_chain := None;
             wizard_tokenAddress := None; wizard_tokenInfo := None;
             wizard_emoji := None; wizard_imageFileId := None |}).
Proof. unfold current. simpl. now rewrite !lookup_insert_eq. Qed.

Lemma suspended_suspend (s : Suspended) (w : Wizard) :
  suspended (suspend s w) !! nextSuspended w = Some s.
Proof. apply lookup_insert_eq. Qed.

(** X18.  A chat that walks through the wizard gets the watch it asked
    for.  From any state of the wizard, the setup command in a group where
    the bot is administrator, the choice of the chain, the token address,
    its successful validation, the choice of the emoji and the upload of
    an image end in one call of [finalizeSetup] for that chat with exactly
    the chain chosen, the address as typed without surrounding white
    space, the identity returned by the validation, the emoji and the
    image; the chat then has left the wizard. *)
Theorem wizard_walkthrough (env : ProcessEnv) (w : Wizard) (chatId : Z)
    (chatType choice text : string) (info : TokenInfo) (emoji fileId : string)
    (replied opens : bool) :
  chatType = "group" \/ chatType = "supergroup" ->
  let k := nextSuspended w in
  let setupData :=
    {| setup_chain := if String.eqb choice "bnb" then "BNB" else "Solana";
       setup_tokenAddress := trim text;
       setup_tokenInfo := info;
       setup_emoji := emoji;
       setup_imageFileId := fileId |} in
  exists w',
    wizard_run env
      [ SetupCommand chatId chatType; AdminsArrive k (Some true);
        ChainAction chatId choice; TextMessage chatId text;
        LoadingReplySettles (S k) true; ValidationSettles (S (S k)) (Some info);
        EmojiAction chatId emoji; EmojiAckSettles (S (S (S k))) true;
        PhotoMessage chatId fileId replied opens ] w = Some w'
    /\ bot w' = finalizeSetup env replied opens chatId setupData (bot w)
    /\ setupStates w' !! chatId = None.
Proof.
  intros Hty k setupData. subst k.
  assert (Hgroup : negb (String.eqb chatType "group")
                   && negb (String.eqb chatType "supergroup") = false).
  { destruct Hty as [-> | ->]; reflexivity. }
  cbn [wizard_run]. cbn [wizard_turn]. rewrite Hgroup.
  (* the administrators arrive *)
  cbn [wizard_turn]. rewrite suspended_suspend.
  set (k := nextSuspended w).
  set (w1 := new_setup chatId (settle k (suspend (AwaitAdmins chatId) w))).
  (* the chain *)
  cbn [wizard_turn]. unfold w1 at 1. rewrite current_new_setup.
  cbn [wizard_step]. change (String.eqb "blockchain_selection" "blockchain_selection") with true.
  cbv iota.
  set (r := nextObject (settle k (suspend (AwaitAdmins chatId) w))).
  set (o2 := with_chain _ (with_step "token_address" _)).
  set (w2 := store chatId r o2 w1).
  (* the address *)
  cbn [wizard_turn]. unfold w2 at 1. rewrite current_store.
  change (String.eqb (wizard_step o2) "token_address") with true. cbv iota.
  set (w3 := suspend (AwaitLoadingReply chatId r (trim text)) w2).
  cbn [wizard_turn].
  change (suspended w3 !! S k) with (suspended w3 !! nextSuspended w2).
  unfold w3 at 1. rewrite suspended_suspend.
  assert (H3 : heap (settle (S k) w3) !! r = Some o2) by apply lookup_insert_eq.
  rewrite H3.
  set (o4 := with_step "validating" o2).
  set (w4 := suspend (AwaitValidation chatId r (trim text))
               (store chatId r o4 (settle (S k) w3))).
  (* the validation *)
  cbn [wizard_turn].
  change (suspended w4 !! S (S k))
    with (suspended w4 !! nextSuspended (store chatId r o4 (settle (S k) w3))).
  unfold w4 at 1. rewrite suspended_suspend.
  assert (H4 : heap (settle (S (S k)) w4) !! r = Some o4) by apply lookup_insert_eq.
  rewrite H4.
  set (o5 := with_step "emoji_selection" (with_token (trim text) info o4)).
  set (w5 := store chatId r o5 (settle (S (S k)) w4)).
  (* the emoji *)
  cbn [wizard_turn]. unfold w5 at 1. rewrite current_store.
  change (String.eqb (wizard_step o5) "emoji_selection") with true. cbv iota.
  set (w6 := suspend (AwaitEmojiAck chatId r emoji) w5).
  cbn [wizard_turn].
  change (suspended w6 !! S (S (S k))) with (suspended w6 !! nextSuspended w5).
  unfold w6 at 1. rewrite suspended_suspend.
  assert (H6 : heap (settle (S (S (S k))) w6) !! r = Some o5) by apply lookup_insert_eq.
  rewrite H6.
  set (o7 := with_step "image_upload" (with_emoji emoji o5)).
  set (w7 := store chatId r o7 (settle (S (S (S k))) w6)).
  (* the image *)
  cbn [wizard_turn]. unfold w7 at 1. rewrite current_store.
  change (String.eqb (wizard_step o7) "image_upload") with true. cbv iota.
  unfold finish.
  change (setup_data (with_imageFileId fileId o7)) with (Some setupData).
  cbv iota.
  eexists. split; [reflexivity|]. split; [reflexivity|].
  apply lookup_delete_eq.
Qed.

Lemma wizard_walkthrough_witness :
  exists w',
    wizard_run default_env
      [ SetupCommand 42 "supergroup"; AdminsArrive 0 (Some true);
        ChainAction 42 "solana"; TextMessage 42 " TOKENA ";
        LoadingReplySettles 1 true;
        ValidationSettles 2 (Some {| name := "Token One"; symbol := "TK1" |});
        EmojiAction 42 "🚀"; EmojiAckSettles 3 true;
        PhotoMessage 42 "file-1" true true ] wizard_initial = Some w'
    /\ bot w'
       = finalizeSetup default_env true true 42
           {| setup_chain := "Solana"; setup_tokenAddress := "TOKENA";
              setup_tokenInfo := {| name := "Token One"; symbol := "TK1" |};
              setup_emoji := "🚀"; setup_imageFileId := "file-1" |} initial
    /\ setupStates w' !! 42%Z = None.
Proof.
  apply (wizard_walkthrough default_env wizard_initial 42 "supergroup" "solana"
           " TOKENA " {| name := "Token One"; symbol := "TK1" |} "🚀" "file-1"
           true true).
  now right.
Defined.




(* ===================================================================== *)
(** * One firing of an interval *)
(* ===================================================================== *)

(** X20.  A firing of an interval delivers at most one notification, to
    the group its feed was started for, with the image and the caption of
    the configuration the feed captured; it never touches the registry or
    the stored configurations, and a cleared timer does nothing at
    all. *)
Theorem tick_delivers_to_own_group (env : ProcessEnv) (tid : nat) (d : Draw)
    (w : World) :
  let w' := tick env tid d w in
  activeListeners w' = activeListeners w
  /\ groups w' = groups w
  /\ match timers w !! tid with
     | None => w' = w
     | Some cb =>
         payloads (new_events w w') = []
         \/ payloads (new_events w w')
            = [(callback_group cb, photo_of (callback_config cb),
                caption env (callback_config cb) (sample d) false)]
     end.
Proof.
  intros w'. destruct (tick_frame env tid d w) as (HA & _ & HG & _).
  split; [exact HA|]. split; [exact HG|].
  subst w'. unfold tick, call.
  destruct (timers w !! tid) as [[[g c]|[g c]|g c]|]; simpl; [| | |reflexivity].
  - destruct (gt _ _).
    + right. apply sendBuyNotification_payloads.
    + left. now rewrite new_events_refl.
  - destruct (gt _ _).
    + right. apply sendBuyNotification_payloads.
    + left. now rewrite new_events_refl.
  - destruct (negb _).
    + left.
      rewrite (new_events_app w _
                 [Log INFO (now w) "Stopping transaction simulator - group inactive"]);
        reflexivity.
    + destruct (gt _ _).
      * left. now rewrite new_events_refl.
      * right. apply sendBuyNotification_payloads.
Qed.

(* ===================================================================== *)
(** * When [parseFloat] gives NaN *)
(* ===================================================================== *)

Lemma shr_1_nonneg (mrs : shr_record) :
  (0 <= shr_m mrs)%Z -> (0 <= shr_m (shr_1 mrs))%Z.
Proof.
  destruct mrs as [m r s]. simpl.
  destruct m as [|[p|p|]|p]; simpl; lia.
Qed.

Lemma iter_pos_shr_1_nonneg (p : positive) (mrs : shr_record) :
  (0 <= shr_m mrs)%Z -> (0 <= shr_m (SpecFloat.iter_pos shr_1 p mrs))%Z.
Proof.
  revert mrs. induction p as [p IH|p IH|]; intros mrs H; simpl.
  - apply IH, IH, shr_1_nonneg, H.
  - apply IH, IH, H.
  - now apply shr_1_nonneg.
Qed.

Lemma shr_fexp_nonneg (m e : Z) (l : location) :
  (0 <= m)%Z -> (0 <= shr_m (fst (shr_fexp prec emax m e l)))%Z.
Proof.
  intros H. unfold shr_fexp, shr.
  assert (H0 : (0 <= shr_m (shr_record_of_loc m l))%Z).
  { unfold shr_record_of_loc. destruct l as [|[| |]]; exact H. }
  destruct (_ - e)%Z; simpl; auto.
  now apply iter_pos_shr_1_nonneg.
Qed.

Lemma binary_round_aux_not_nan (sx : bool) (mx ex : Z) (lx : location) :
  (0 <= mx)%Z -> binary_round_aux prec emax sx mx ex lx <> S754_nan.
Proof.
  intros H. unfold binary_round_aux.
  pose proof (shr_fexp_nonneg mx ex lx H) as H1.
  destruct (shr_fexp prec emax mx ex lx) as [mrs' e']. simpl in H1.
  assert (H2 : (0 <= round_nearest_even (shr_m mrs') (loc_of_shr_record mrs'))%Z).
  { unfold round_nearest_even.
    destruct (loc_of_shr_record mrs') as [|[| |]]; try lia.
    destruct (Z.even _); lia. }
  pose proof (shr_fexp_nonneg _ e' loc_Exact H2) as H3.
  destruct (shr_fexp prec emax _ e' loc_Exact) as [mrs'' e'']. simpl in H3.
  destruct (shr_m mrs'') as [|p|p]; [discriminate| |lia].
  destruct (_ <=? _)%Z; discriminate.
Qed.

Lemma round_decimal_not_NaN (negative : bool) (m : N) (d : Z) :
  round_decimal negative m d <> NaN.
Proof.
  unfold round_decimal. destruct m as [|p]; [discriminate|].
  assert (Hnan : forall f, f <> S754_nan -> of_spec_float f <> NaN).
  { intros [s|s| |s mm e] Hf; simpl; try discriminate. now elim Hf. }
  destruct (0 <=? d)%Z; apply Hnan.
  - unfold binary_normalize.
    destruct (_ * _)%Z as [|q|q]; [discriminate| |];
      unfold binary_round; destruct (shl_align _ _ _) as [mz ez];
      apply binary_round_aux_not_nan; lia.
  - unfold SFdiv.
    destruct (SFdiv_core_binary prec emax (Z.pos p) 0 _ 0)
      as [[mz ez] lz] eqn:E.
    apply binary_round_aux_not_nan.
    unfold SFdiv_core_binary in E.
    set (m' := match _ with Zpos _ => _ | Z0 => _ | Zneg _ => _ end) in E.
    assert (Hm' : (0 <= m')%Z).
    { subst m'. destruct (_ - _ - _)%Z; try lia.
      apply Z.shiftl_nonneg. lia. }
    pose proof (Z_div_mod m' (Z.pos (Z.to_pos (10 ^ (- d)))) eq_refl) as Hdm.
    destruct (Z.div_eucl m' _) as [q r]. injection E as <- _ _.
    destruct Hdm as [Heq Hr]. nia.
Qed.

Lemma decimal_digits_read (l : list N) (acc : N) (read : nat) :
  read <= snd (fst (decimal_digits l acc read)).
Proof.
  revert acc read. induction l as [|c r IH]; intros acc read; simpl; [lia|].
  destruct (_ && _); simpl; [|lia].
  specialize (IH (acc * 10 + (c - 48))%N (S read)). lia.
Qed.

Lemma decimal_digits_none (l : list N) (acc : N) :
  match l with
  | c :: _ => is_digit c = false
  | [] => True
  end ->
  decimal_digits l acc 0 = (acc, 0, l).
Proof.
  destruct l as [|c r]; simpl; [reflexivity|].
  unfold is_digit. now intros ->.
Qed.

Lemma fraction_match (l : list N) (ip : N) :
  match l with
  | (46 :: r)%N => decimal_digits r ip 0
  | _ => (ip, 0, l)
  end
  = match l with
    | c :: r => if (c =? 46)%N then decimal_digits r ip 0 else (ip, 0, l)
    | [] => (ip, 0, l)
    end.
Proof.
  destruct l as [|c r]; [reflexivity|].
  destruct c as [|q]; [reflexivity|].
  do 6 (destruct q as [q|q|]; try reflexivity).
Qed.

(** X21.  [parseFloat] gives NaN exactly when no number begins the string:
    when what follows the leading white space and the optional sign
    begins neither with [Infinity], nor with a digit, nor with a dot and
    a digit.  In particular an amount written in digits never falls into
    the tier of unparsable amounts. *)
Theorem parseFloat_NaN_iff (s : string) :
  parseFloat s = NaN
  <-> begins_with (codes "Infinity") (unsigned_part s) = false
      /\ literal_start (unsigned_part s) = false.
Proof.
  unfold parseFloat, unsigned_part.
  destruct (sign (skip_white_space (String.length s) (codes s)))
    as [negative l1]. cbn [snd].
  destruct (begins_with (codes "Infinity") l1) eqn:Einf.
  { split; [discriminate | intros [? _]; discriminate]. }
  destruct l1 as [|c r].
  { cbn. tauto. }
  cbn [decimal_digits literal_start].
  change ((48 <=? c)%N && (c <=? 57)%N) with (is_digit c).
  destruct (is_digit c) eqn:Ed.
  - (* a digit: the integer part is not empty *)
    cbn [orb].
    pose proof (decimal_digits_read r (0 * 10 + (c - 48))%N 1) as Hread.
    destruct (decimal_digits r _ 1) as [[ip ni] l2]. cbn [fst snd] in Hread.
    destruct (match l2 with (46 :: r0)%N => _ | _ => _ end) as [[m nf] l3].
    destruct (ni + nf =? 0)%nat eqn:E; [apply Nat.eqb_eq in E; lia|].
    split; [intros H; now apply round_decimal_not_NaN in H|].
    intros [_ ?]. discriminate.
  - (* no digit first: only a dot followed by a digit begins a number *)
    cbn [orb]. rewrite (fraction_match (c :: r)).
    destruct ((c =? 46)%N) eqn:E46; cbn [andb].
    + destruct r as [|c' r'].
      * cbn. tauto.
      * cbn [decimal_digits].
        change ((48 <=? c')%N && (c' <=? 57)%N) with (is_digit c').
        destruct (is_digit c') eqn:Ed'.
        -- pose proof (decimal_digits_read r' (0 * 10 + (c' - 48))%N 1) as Hread.
           destruct (decimal_digits r' _ 1) as [[m nf] l3].
           cbn [fst snd] in Hread.
           destruct nf as [|nf]; [lia|]. cbn [Nat.add Nat.eqb].
           split; [intros H; now apply round_decimal_not_NaN in H|].
           intros [_ ?]. discriminate.
        -- cbn. tauto.
    + cbn. tauto.
Qed.
